(** * Tool router of the Firecrawl agent: selection, extraction, validation

    A shallow embedding of [src/MCP_Tool/claude_test.py] (class
    [FirecrawlAgent]) and of the tool wrappers of
    [src/MCP_Tool/firecrawl_fapi.py], followed by the properties of the
    natural-language specification that concern them.

    Data model.
    - A Python [str] is a [string]; a character is the code point of the same
    number (0..255).  The character classes of the [re] module and
    [str.lower] are written out for that range.
    - A regular expression is a value of [regex]; the matcher is the
    backtracking matcher of [re]: leftmost match, greedy quantifiers,
    alternatives tried from left to right.
    - A [dict] of arguments is a [gmap string value]; the pattern catalog,
    whose order matters, is an association list.
    - The agent object ([self]) is threaded through the methods as the state
    of a small state-and-exception monad. *)

From Stdlib Require Import ZArith Ascii String Bool List Lia.
From stdpp Require Import gmap strings list fin_maps.

Local Open Scope Z_scope.
Import ListNotations.

(** ** Characters *)

Definition code (c : ascii) : N := N_of_ascii c.

Definition in_range (lo hi : N) (c : ascii) : bool :=
  ((lo <=? code c) && (code c <=? hi))%N.

(** [str.isspace] and the class [\s]: tab, newline, vertical tab, form
    feed, carriage return, the four separators 28..31, space, NEL and the
    no-break space. *)
Definition is_space (c : ascii) : bool :=
  in_range 9 13 c || in_range 28 32 c || (code c =? 133)%N || (code c =? 160)%N.

(** The class [\d]. *)
Definition is_digit (c : ascii) : bool := in_range 48 57 c.

Definition is_upper_ascii (c : ascii) : bool := in_range 65 90 c.
Definition is_lower_ascii (c : ascii) : bool := in_range 97 122 c.

(** Upper-case letters above 127: 192..222 without the multiplication sign. *)
Definition is_upper_latin (c : ascii) : bool :=
  in_range 192 222 c && negb (code c =? 215)%N.

(** [str.isalnum] on the range 0..255. *)
Definition is_alnum (c : ascii) : bool :=
  is_digit c || is_upper_ascii c || is_lower_ascii c
  || (code c =? 170)%N || (code c =? 178)%N || (code c =? 179)%N
  || (code c =? 181)%N || (code c =? 185)%N || (code c =? 186)%N
  || in_range 188 190 c
  || in_range 192 214 c || in_range 216 246 c || in_range 248 255 c.

(** The class [\w]. *)
Definition is_word (c : ascii) : bool := is_alnum c || (code c =? 95)%N.

Definition lower_char (c : ascii) : ascii :=
  if is_upper_ascii c || is_upper_latin c
  then ascii_of_N (code c + 32)
  else c.

(** ** Strings *)

(** [s.lower()] *)
Fixpoint lower (s : string) : string :=
  match s with
  | EmptyString => EmptyString
  | String c s' => String (lower_char c) (lower s')
  end.

(** [s.startswith(p)] *)
Fixpoint startswith (p s : string) : bool :=
  match p, s with
  | EmptyString, _ => true
  | String a p', String b s' => Ascii.eqb a b && startswith p' s'
  | String _ _, EmptyString => false
  end.

(** [needle in hay] *)
Fixpoint contains (needle hay : string) : bool :=
  startswith needle hay ||
  match hay with
  | EmptyString => false
  | String _ hay' => contains needle hay'
  end.

(** [any(keyword in s for keyword in keywords)] *)
Definition any_in (keywords : list string) (s : string) : bool :=
  existsb (fun keyword => contains keyword s) keywords.

(** [s[n:]] *)
Fixpoint slice_from (n : nat) (s : string) : string :=
  match n, s with
  | O, _ => s
  | S n', String _ s' => slice_from n' s'
  | S _, EmptyString => EmptyString
  end.

(** [s[:n]] *)
Fixpoint slice_to (n : nat) (s : string) : string :=
  match n, s with
  | O, _ => EmptyString
  | S n', String c s' => String c (slice_to n' s')
  | S _, EmptyString => EmptyString
  end.

(** [hay.find(needle)]: the index of the first occurrence; [None] stands for
    the result -1. *)
Fixpoint str_find (needle hay : string) : option nat :=
  if startswith needle hay then Some O
  else match hay with
       | EmptyString => None
       | String _ hay' => option_map S (str_find needle hay')
       end.

Fixpoint lstrip (s : string) : string :=
  match s with
  | String c s' => if is_space c then lstrip s' else s
  | EmptyString => EmptyString
  end.

Fixpoint rstrip (s : string) : string :=
  match s with
  | String c s' =>
      match rstrip s' with
      | EmptyString => if is_space c then EmptyString else String c EmptyString
      | r => String c r
      end
  | EmptyString => EmptyString
  end.

(** [s.strip()] *)
Definition strip (s : string) : string := rstrip (lstrip s).

(** [int(s)] for a string of decimal digits, the only strings the source
    converts (they are captures of [\d+]). *)
Fixpoint int_acc (acc : Z) (s : string) : Z :=
  match s with
  | EmptyString => acc
  | String c s' => int_acc (10 * acc + (Z.of_N (code c) - 48)) s'
  end.

Definition int (s : string) : Z := int_acc 0 s.

(** [' '.join(l)] *)
Fixpoint str_join (sep : string) (l : list string) : string :=
  match l with
  | [] => EmptyString
  | [x] => x
  | x :: l' => x +:+ sep +:+ str_join sep l'
  end.

(** ** Regular expressions *)

(** The fragment of the [re] syntax the source uses.  Quantifiers [*] and
    [+] only ever apply to a single-character class there; [?] applies to
    groups too.  At most one capturing group occurs in a pattern. *)
Inductive regex : Type :=
| Eps
| Chr (p : ascii → bool)        (* one character satisfying [p] *)
| Seq (r1 r2 : regex)
| Alt (r1 r2 : regex)           (* r1|r2 *)
| Opt (r : regex)               (* (?:r)?, greedy *)
| Star (p : ascii → bool)       (* p*, greedy *)
| Plus (p : ascii → bool)       (* p+, greedy *)
| Group (r : regex)             (* (r), the capturing group 1 *)
| WordB.                        (* \b *)

Definition is_char (a : ascii) : ascii → bool := Ascii.eqb a.
(** A literal character under [re.IGNORECASE]. *)
Definition is_char_i (a : ascii) : ascii → bool :=
  fun c => Ascii.eqb (lower_char a) (lower_char c).
(** The dot: any character but the newline. *)
Definition not_newline (c : ascii) : bool := negb (code c =? 10)%N.
(** A negated set whose members are the class [\s] and the listed characters. *)
Definition none_of (spaces : bool) (l : list N) (c : ascii) : bool :=
  negb ((spaces && is_space c) || existsb (N.eqb (code c)) l).

Fixpoint lit (s : string) : regex :=
  match s with
  | EmptyString => Eps
  | String c EmptyString => Chr (is_char c)
  | String c s' => Seq (Chr (is_char c)) (lit s')
  end.

Fixpoint lit_i (s : string) : regex :=
  match s with
  | EmptyString => Eps
  | String c EmptyString => Chr (is_char_i c)
  | String c s' => Seq (Chr (is_char_i c)) (lit_i s')
  end.

Fixpoint cat (l : list regex) : regex :=
  match l with
  | [] => Eps
  | [r] => r
  | r :: l' => Seq r (cat l')
  end.

Fixpoint alts (l : list regex) : regex :=
  match l with
  | [] => Eps
  | [r] => r
  | r :: l' => Alt r (alts l')
  end.

(** An alternation of literal words, (?:w1|w2|...). *)
Definition oneof (l : list string) : regex := alts (map lit l).

(** [\s+], [\s*], [\d+], [.*] *)
Definition ws1 : regex := Plus is_space.
Definition ws0 : regex := Star is_space.
Definition digits1 : regex := Plus is_digit.
Definition dotstar : regex := Star not_newline.

(** The text consumed between a position [s] and a later position [s']. *)
Definition consumed (s s' : string) : string :=
  slice_to (String.length s - String.length s') s.

Definition word_at (o : option ascii) : bool :=
  match o with Some c => is_word c | None => false end.

Definition first_char (s : string) : option ascii :=
  match s with String c _ => Some c | EmptyString => None end.

Section Matcher.
Context {R : Type}.

(** A continuation receives the character before the current position,
    the rest of the text and the capture made so far. *)
Definition kont : Type := option ascii → string → option string → option R.

Fixpoint m_star (p : ascii → bool) (prev : option ascii) (s : string)
      (g : option string) (k : kont) : option R :=
    match s with
    | String c s' =>
        if p c then
          match m_star p (Some c) s' g k with
          | Some x => Some x
          | None => k prev s g
          end
        else k prev s g
    | EmptyString => k prev s g
    end.

Fixpoint m (r : regex) (prev : option ascii) (s : string)
      (g : option string) (k : kont) : option R :=
    match r with
    | Eps => k prev s g
    | Chr p =>
        match s with
        | String c s' => if p c then k (Some c) s' g else None
        | EmptyString => None
        end
    | Seq r1 r2 => m r1 prev s g (fun prev' s' g' => m r2 prev' s' g' k)
    | Alt r1 r2 =>
        match m r1 prev s g k with
        | Some x => Some x
        | None => m r2 prev s g k
        end
    | Opt r1 =>
        match m r1 prev s g k with
        | Some x => Some x
        | None => k prev s g
        end
    | Star p => m_star p prev s g k
    | Plus p =>
        match s with
        | String c s' => if p c then m_star p (Some c) s' g k else None
        | EmptyString => None
        end
    | Group r1 => m r1 prev s g (fun prev' s' _ => k prev' s' (Some (consumed s s')))
    | WordB =>
        if xorb (word_at prev) (word_at (first_char s)) then k prev s g else None
    end.
End Matcher.

(** A match object: the matched text, group 1 and the text after the match. *)
Record rmatch : Type := { group0 : string; group1 : option string; rest : string }.

(** A match starting exactly at the current position. *)
Definition match_here (r : regex) (prev : option ascii) (s : string) : option rmatch :=
  m r prev s None
    (fun _ s' g => Some {| group0 := consumed s s'; group1 := g; rest := s' |}).

Fixpoint search_from (r : regex) (prev : option ascii) (s : string) : option rmatch :=
  match match_here r prev s with
  | Some x => Some x
  | None =>
      match s with
      | String c s' => search_from r (Some c) s'
      | EmptyString => None
      end
  end.

(** [re.search(r, s)] *)
Definition re_search (r : regex) (s : string) : option rmatch := search_from r None s.

(** [m.group(1)] of a match of a pattern whose group 1 takes part in every
    match. *)
Definition group (x : rmatch) : string :=
  match group1 x with Some g => g | None => EmptyString end.

(** The scan shared by [re.findall] and [re.sub]: [skip] counts the
    characters of the text still covered by the last match. *)
Fixpoint findall_from (r : regex) (prev : option ascii) (s : string) (skip : nat)
    : list string :=
  match skip with
  | S skip' =>
      match s with
      | String c s' => findall_from r (Some c) s' skip'
      | EmptyString => []
      end
  | O =>
      match match_here r prev s with
      | Some x =>
          group0 x ::
          match s with
          | String c s' => findall_from r (Some c) s' (String.length (group0 x) - 1)
          | EmptyString => []
          end
      | None =>
          match s with
          | String c s' => findall_from r (Some c) s' 0
          | EmptyString => []
          end
      end
  end.

(** [re.findall(r, s)] for a pattern without groups. *)
Definition re_findall (r : regex) (s : string) : list string := findall_from r None s 0.

Fixpoint delete_from (r : regex) (prev : option ascii) (s : string) (skip : nat) : string :=
  match s with
  | EmptyString => EmptyString
  | String c s' =>
      match skip with
      | S skip' => delete_from r (Some c) s' skip'
      | O =>
          match match_here r prev s with
          | Some x =>
              match String.length (group0 x) with
              | O => String c (delete_from r (Some c) s' 0)
              | S n => delete_from r (Some c) s' n
              end
          | None => String c (delete_from r (Some c) s' 0)
          end
      end
  end.

(** [re.sub(r, '', s)]: every match, found from left to right without
    overlap, is removed. *)
Definition re_delete (r : regex) (s : string) : string := delete_from r None s 0.

(** ** Values and argument sets *)

(** The values the extractor stores in an argument set. *)
Inductive value : Type :=
| VStr (s : string)
| VInt (n : Z)
| VBool (b : bool)
| VList (l : list string).

(** Python's truth value of an object: the empty string, the integer zero,
    [False] and the empty list are false. *)
Definition truthy (v : value) : bool :=
  match v with
  | VStr EmptyString => false
  | VStr _ => true
  | VInt n => negb (n =? 0)
  | VBool b => b
  | VList [] => false
  | VList _ => true
  end.

(** ** Effects: state and exceptions *)

(** The result of running Python code: a value, or an exception, which is
    represented by its message [str(e)].  The exceptions of the model are
    the instances of [Exception], those a clause [except Exception]
    catches. *)
Inductive outcome (A : Type) : Type :=
| Return (a : A)
| Raise (msg : string).
Arguments Return {A} a.
Arguments Raise {A} msg.

Definition M (S A : Type) : Type := S → outcome A * S.

Definition ret {S A} (a : A) : M S A := fun st => (Return a, st).
Definition raise {S A} (msg : string) : M S A := fun st => (Raise msg, st).
Definition bind {S A B} (mx : M S A) (f : A → M S B) : M S B :=
  fun st =>
    match mx st with
    | (Return a, st') => f a st'
    | (Raise e, st') => (Raise e, st')
    end.
Definition gets {S A} (f : S → A) : M S A := fun st => (Return (f st), st).

(** [try: body  except Exception as e: handler(str(e))] *)
Definition try_except {S A} (body : M S A) (handler : string → M S A) : M S A :=
  fun st =>
    match body st with
    | (Return a, st') => (Return a, st')
    | (Raise e, st') => handler e st'
    end.

Declare Scope py_scope.
Delimit Scope py_scope with py.
Notation "x <- mx ;; k" := (bind mx (fun x => k))
  (at level 62, mx at level 50, right associativity) : py_scope.

Definition eval {S A} (mx : M S A) (st : S) : outcome A := fst (mx st).
Definition exec {S A} (mx : M S A) (st : S) : S := snd (mx st).

(** ** The agent *)

Definition nl : string := String (ascii_of_nat 10) EmptyString.

(** [url_pattern]: http, an optional s, ://, then one or more characters that
    are neither white space nor one of the eleven excluded punctuation
    characters (angle brackets, double quote, braces, bar, backslash, caret,
    backquote, square brackets). *)
Definition url_pattern : regex :=
  cat [lit "http"; Opt (lit "s"); lit "://";
       Plus (none_of true [60; 62; 34; 123; 125; 124; 92; 94; 96; 91; 93]%N)].

(** (?:limit|max|maximum|up to)\s*(\d+) *)
Definition limit_pattern : regex :=
  cat [oneof ["limit"; "max"; "maximum"; "up to"]; ws0; Group digits1].

(** \b(\d+)\s*(?:pages?|links?|results?) *)
Definition number_pattern : regex :=
  cat [WordB; Group digits1; ws0;
       alts [Seq (lit "page") (Opt (lit "s"));
             Seq (lit "link") (Opt (lit "s"));
             Seq (lit "result") (Opt (lit "s"))]].

(** rf'\b{phrase}\b' with [re.IGNORECASE] *)
Definition phrase_pattern (phrase : string) : regex :=
  cat [WordB; lit_i phrase; WordB].

(** about\s+([^,.\n]+) *)
Definition about_pattern : regex :=
  cat [lit "about"; ws1; Group (Plus (none_of false [44; 46; 10]%N))].

(** (?:depth|levels?)\s*(\d+) *)
Definition depth_pattern : regex :=
  cat [Alt (lit "depth") (Seq (lit "level") (Opt (lit "s"))); ws0; Group digits1].

(** (?:time|timeout|limit)\s*(\d+)\s*(?:seconds?|minutes?) *)
Definition time_pattern : regex :=
  cat [oneof ["time"; "timeout"; "limit"]; ws0; Group digits1; ws0;
       Alt (Seq (lit "second") (Opt (lit "s"))) (Seq (lit "minute") (Opt (lit "s")))].

(** [self.tool_patterns], as written in [__init__]; the order of the keys
    is the order of insertion. *)
Definition the_tool_patterns : list (string * list regex) :=
  [ ("scrape_website",
     [ (* scrape?\s+(?:the\s+)?(?:website|page|url|site) *)
       cat [lit "scrap"; Opt (lit "e"); ws1; Opt (Seq (lit "the") ws1);
            oneof ["website"; "page"; "url"; "site"]];
       (* get\s+content\s+from *)
       cat [lit "get"; ws1; lit "content"; ws1; lit "from"];
       (* extract\s+(?:data|content|text)\s+from\s+(?:website|url|page) *)
       cat [lit "extract"; ws1; oneof ["data"; "content"; "text"]; ws1; lit "from"; ws1;
            oneof ["website"; "url"; "page"]];
       (* fetch\s+(?:data|content)\s+from *)
       cat [lit "fetch"; ws1; oneof ["data"; "content"]; ws1; lit "from"] ]);
    ("crawl_website",
     [ (* crawl\s+(?:the\s+)?(?:website|site) *)
       cat [lit "crawl"; ws1; Opt (Seq (lit "the") ws1); oneof ["website"; "site"]];
       (* get\s+multiple\s+pages *)
       cat [lit "get"; ws1; lit "multiple"; ws1; lit "pages"];
       (* crawl\s+\d+\s+pages *)
       cat [lit "crawl"; ws1; digits1; ws1; lit "pages"];
       (* crawl.*limit.*\d+ *)
       cat [lit "crawl"; dotstar; lit "limit"; dotstar; digits1];
       (* spider\s+(?:the\s+)?website *)
       cat [lit "spider"; ws1; Opt (Seq (lit "the") ws1); lit "website"] ]);
    ("search_website",
     [ (* search\s+(?:for\s+)?(?:websites?|web|internet) *)
       cat [lit "search"; ws1; Opt (Seq (lit "for") ws1);
            alts [Seq (lit "website") (Opt (lit "s")); lit "web"; lit "internet"]];
       (* find\s+(?:websites?|pages?)\s+(?:about|with|containing) *)
       cat [lit "find"; ws1;
            Alt (Seq (lit "website") (Opt (lit "s"))) (Seq (lit "page") (Opt (lit "s")));
            ws1; oneof ["about"; "with"; "containing"]];
       (* search\s+(?:the\s+)?(?:web|internet)\s+for *)
       cat [lit "search"; ws1; Opt (Seq (lit "the") ws1); oneof ["web"; "internet"];
            ws1; lit "for"];
       (* web\s+search *)
       cat [lit "web"; ws1; lit "search"] ]);
    ("map_links",
     [ (* (?:map|find|get|list)\s+(?:all\s+)?links *)
       cat [oneof ["map"; "find"; "get"; "list"]; ws1; Opt (Seq (lit "all") ws1);
            lit "links"];
       (* discover\s+links *)
       cat [lit "discover"; ws1; lit "links"];
       (* find\s+(?:all\s+)?(?:urls?|links)\s+(?:on|from) *)
       cat [lit "find"; ws1; Opt (Seq (lit "all") ws1);
            Alt (Seq (lit "url") (Opt (lit "s"))) (lit "links"); ws1;
            oneof ["on"; "from"]];
       (* map\s+(?:the\s+)?(?:website|site)\s+structure *)
       cat [lit "map"; ws1; Opt (Seq (lit "the") ws1); oneof ["website"; "site"]; ws1;
            lit "structure"] ]);
    ("extract_content",
     [ (* extract\s+(?:structured\s+)?(?:data|content|information) *)
       cat [lit "extract"; ws1; Opt (Seq (lit "structured") ws1);
            oneof ["data"; "content"; "information"]];
       (* get\s+specific\s+(?:data|information) *)
       cat [lit "get"; ws1; lit "specific"; ws1; oneof ["data"; "information"]];
       (* parse\s+(?:data|content)\s+from *)
       cat [lit "parse"; ws1; oneof ["data"; "content"]; ws1; lit "from"];
       (* extract.*using.*(?:schema|structure|format) *)
       cat [lit "extract"; dotstar; lit "using"; dotstar;
            oneof ["schema"; "structure"; "format"]] ]);
    ("deep_analysis",
     [ (* (?:deep|thorough|comprehensive)\s+(?:analysis|research) *)
       cat [oneof ["deep"; "thorough"; "comprehensive"]; ws1;
            oneof ["analysis"; "research"]];
       (* research\s+(?:about|on) *)
       cat [lit "research"; ws1; oneof ["about"; "on"]];
       (* analyze\s+(?:deeply|thoroughly) *)
       cat [lit "analyze"; ws1; oneof ["deeply"; "thoroughly"]];
       (* in-depth\s+(?:analysis|research|study) *)
       cat [lit "in-depth"; ws1; oneof ["analysis"; "research"; "study"]] ]) ].

(** The inner loop of [identify_tool]: [true] when some pattern of the list
    is found in the text, which makes the method return. *)
Fixpoint any_pattern (patterns : list regex) (text : string) : bool :=
  match patterns with
  | [] => false
  | pattern :: patterns' =>
      match re_search pattern text with
      | Some _ => true
      | None => any_pattern patterns' text
      end
  end.

(** The outer loop of [identify_tool] over [self.tool_patterns.items()]. *)
Fixpoint first_tool (items : list (string * list regex)) (text : string) : option string :=
  match items with
  | [] => None
  | (tool_name, patterns) :: items' =>
      if any_pattern patterns text then Some tool_name else first_tool items' text
  end.

(** The code after the loops of [identify_tool] (default fallback logic). *)
Definition fallback_tool (user_input_lower : string) : option string :=
  if any_in ["http"; "www"; ".com"; ".org"; ".net"] user_input_lower then
    if any_in ["crawl"; "multiple"; "pages"; "limit"] user_input_lower then
      Some "crawl_website"
    else if any_in ["links"; "map"; "discover"] user_input_lower then
      Some "map_links"
    else Some "scrape_website"
  else if any_in ["search"; "find"] user_input_lower then Some "search_website"
  else None.

(** The loop over the indicators in the branches [extract_content] and
    [deep_analysis]: the first indicator that occurs in the text. *)
Fixpoint first_indicator (indicators : list string) (text : string) : option string :=
  match indicators with
  | [] => None
  | indicator :: indicators' =>
      if contains indicator text then Some indicator
      else first_indicator indicators' text
  end.

(** [hay.find(needle)] where the source has just tested [needle in hay]. *)
Definition find_index (needle hay : string) : nat :=
  match str_find needle hay with Some i => i | None => O end.

(** The three ways the source reads the limit. *)
Definition limit_or (default : Z) (user_input_lower : string) : Z :=
  match re_search limit_pattern user_input_lower with
  | Some limit_match => int (group limit_match)
  | None => default
  end.

Definition crawl_limit (user_input_lower : string) : Z :=
  match re_search limit_pattern user_input_lower with
  | Some limit_match => int (group limit_match)
  | None =>
      match re_search number_pattern user_input_lower with
      | Some number_match => int (group number_match)
      | None => 10
      end
  end.

Definition set_url (urls : list string) (params : gmap string value) : gmap string value :=
  match urls with
  | url :: _ => <["url" := VStr url]> params
  | [] => params
  end.

(** [extract_parameters], one definition per branch of the [if]/[elif]
    chain on [tool_name]. *)
Definition extract_scrape (user_input : string) : gmap string value :=
  let user_input_lower := lower user_input in
  let urls := re_findall url_pattern user_input in
  let params := set_url urls ∅ in
  let params :=
    if contains "html" user_input_lower then <["formats" := VList ["html"]]> params
    else if contains "json" user_input_lower then <["formats" := VList ["json"]]> params
    else if contains "markdown" user_input_lower || contains "md" user_input_lower
         then <["formats" := VList ["markdown"]]> params
    else params in
  if any_in ["main content"; "only content"; "no navigation"] user_input_lower
  then <["onlyMainContent" := VBool true]> params
  else params.

Definition extract_crawl (user_input : string) : gmap string value :=
  let user_input_lower := lower user_input in
  let urls := re_findall url_pattern user_input in
  let params := set_url urls ∅ in
  <["limit" := VInt (crawl_limit user_input_lower)]> params.

Definition search_query (user_input : string) : string :=
  strip (fold_left (fun query phrase => re_delete (phrase_pattern phrase) query)
                   ["search for"; "find"; "look for"; "search"] user_input).

Definition extract_search (user_input : string) : gmap string value :=
  let user_input_lower := lower user_input in
  let params := <["query" := VStr (search_query user_input)]> ∅ in
  <["limit" := VInt (limit_or 10 user_input_lower)]> params.

Definition extract_map (user_input : string) : gmap string value :=
  let user_input_lower := lower user_input in
  let urls := re_findall url_pattern user_input in
  let params := set_url urls ∅ in
  let search_terms :=
    if contains "about" user_input_lower then
      match re_search about_pattern user_input_lower with
      | Some about_match => [strip (group about_match)]
      | None => []
      end
    else [] in
  let params :=
    <["search" := VStr (match search_terms with
                        | [] => EmptyString
                        | _ => str_join " " search_terms
                        end)]> params in
  <["limit" := VInt (limit_or 20 user_input_lower)]> params.

Definition extract_extract (user_input : string) : gmap string value :=
  let user_input_lower := lower user_input in
  let urls := re_findall url_pattern user_input in
  let params := <["urls" := VList urls]> ∅ in
  match first_indicator ["extract"; "get"; "find"; "pull out"] user_input_lower with
  | Some indicator =>
      <["prompt" := VStr (slice_from (find_index indicator user_input_lower) user_input)]>
        params
  | None => <["prompt" := VStr user_input]> params
  end.

Definition extract_deep (user_input : string) : gmap string value :=
  let user_input_lower := lower user_input in
  let query :=
    match first_indicator ["research"; "analyze"; "analysis of"; "study"] user_input_lower with
    | Some indicator =>
        strip (slice_from (find_index indicator user_input_lower + String.length indicator)
                          user_input)
    | None => user_input
    end in
  let params := <["query" := VStr query]> ∅ in
  let params :=
    match re_search depth_pattern user_input_lower with
    | Some depth_match => <["max_depth" := VInt (int (group depth_match))]> params
    | None => params
    end in
  match re_search time_pattern user_input_lower with
  | Some time_match =>
      let seconds := int (group time_match) in
      let seconds := if contains "minute" user_input_lower then seconds * 60 else seconds in
      <["time_limit" := VInt seconds]> params
  | None => params
  end.

Definition extract (user_input tool_name : string) : gmap string value :=
  if String.eqb tool_name "scrape_website" then extract_scrape user_input
  else if String.eqb tool_name "crawl_website" then extract_crawl user_input
  else if String.eqb tool_name "search_website" then extract_search user_input
  else if String.eqb tool_name "map_links" then extract_map user_input
  else if String.eqb tool_name "extract_content" then extract_extract user_input
  else if String.eqb tool_name "deep_analysis" then extract_deep user_input
  else ∅.

(** [required_params] of [_validate_parameters]. *)
Definition required_params : list (string * list string) :=
  [ ("scrape_website", ["url"]);
    ("crawl_website", ["url"; "limit"]);
    ("search_website", ["query"; "limit"]);
    ("map_links", ["url"; "limit"; "search"]);
    ("extract_content", ["urls"; "prompt"]);
    ("deep_analysis", ["query"]) ].

Fixpoint lookup_required (table : list (string * list string)) (tool_name : string)
    : option (list string) :=
  match table with
  | [] => None
  | (name, required) :: table' =>
      if String.eqb name tool_name then Some required else lookup_required table' tool_name
  end.

(** The loop of [_validate_parameters]: [false] as soon as a required
    parameter is not in the argument set or its value is not true. *)
Fixpoint all_present (required : list string) (params : gmap string value) : bool :=
  match required with
  | [] => true
  | param :: required' =>
      match params !! param with
      | None => false
      | Some v => if truthy v then all_present required' params else false
      end
  end.

(** The static method [_validate_parameters]. *)
Definition _validate_parameters (tool_name : string) (params : gmap string value) : bool :=
  match lookup_required required_params tool_name with
  | None => false
  | Some required => all_present required params
  end.

Section Agent.
(** The services outside the program: the hosted model with its
    conversation memory and the remote scraping service. *)
Variable World : Type.

(** A tool object of [self.tools] (module [firecrawl_tools], which is not
    part of the sources): its name and its method [_run], which calls the
    remote service and may raise. *)
Record Tool : Type := { name : string; _run : gmap string value → M World string }.

(** The fields of [self] that the methods read. *)
Record FirecrawlAgent : Type := {
    tool_patterns : list (string * list regex);
    tools : list Tool;
    world : World
  }.

(** [self.agent.run], the free-form completion of the hosted model. *)
Variable agent_run : string → M World string.
(** [json.dumps(params, indent=2)] and the [repr] of a list of names. *)
Variable json_dumps : gmap string value → string.
Variable repr_names : list string → string.

(** A call of an outside service from a method of the agent. *)
Definition call {A} (f : M World A) : M FirecrawlAgent A :=
    fun self =>
      let '(r, w) := f (world self) in
      (r, {| tool_patterns := tool_patterns self; tools := tools self; world := w |}).

(** The state [__init__] builds. *)
Definition init (ts : list Tool) (w : World) : FirecrawlAgent :=
    {| tool_patterns := the_tool_patterns; tools := ts; world := w |}.

Local Open Scope py_scope.

Definition identify_tool (user_input : string) : M FirecrawlAgent (option string) :=
    let user_input_lower := lower user_input in
    items <- gets tool_patterns ;;
    match first_tool items user_input_lower with
    | Some tool_name => ret (Some tool_name)
    | None => ret (fallback_tool user_input_lower)
    end.

Definition extract_parameters (user_input tool_name : string)
      : M FirecrawlAgent (gmap string value) :=
    ret (extract user_input tool_name).

(** The loop of [process_request] that looks the tool up by name. *)
Fixpoint select_tool (ts : list Tool) (tool_name : string) : option Tool :=
    match ts with
    | [] => None
    | tool :: ts' =>
        if String.eqb (name tool) tool_name then Some tool else select_tool ts' tool_name
    end.

(** [if tool_name:] holds for a name that is not [None] and not empty. *)
Definition named (tool_name : option string) : option string :=
    match tool_name with
    | Some EmptyString => None
    | other => other
    end.

Definition process_request (user_input : string) : M FirecrawlAgent string :=
    try_except
      (tool_name <- identify_tool user_input ;;
       match named tool_name with
       | Some tool_name =>
           params <- extract_parameters user_input tool_name ;;
           ts <- gets tools ;;
           match select_tool ts tool_name with
           | Some selected_tool =>
               if _validate_parameters tool_name params then
                 result <- call (_run selected_tool params) ;;
                 ret ("Tool: " +:+ tool_name +:+ nl +:+ "Parameters: " +:+ json_dumps params
                      +:+ nl +:+ "Result: " +:+ result)
               else call (agent_run user_input)
           | None =>
               ret ("Tool '" +:+ tool_name +:+ "' not found. Available tools: "
                    +:+ repr_names (map name ts))
           end
       | None => call (agent_run user_input)
       end)
      (fun e => ret ("Error processing request: " +:+ e)).
End Agent.

Arguments name {World} _.
Arguments _run {World} _ _.
Arguments tool_patterns {World} _.
Arguments tools {World} _.
Arguments world {World} _.
Arguments init {World} ts w.
Arguments identify_tool {World} user_input.
Arguments extract_parameters {World} user_input tool_name.
Arguments process_request {World} agent_run json_dumps repr_names user_input.
Arguments call {World A} f.

(** ** The tool wrappers of [firecrawl_fapi.py] *)

(** JSON data; a JSON text returned by a tool is represented by the data it
    encodes. *)
#[warnings="-register-all"]
Inductive json : Type :=
| JNull
| JBool (b : bool)
| JInt (n : Z)
| JStr (s : string)
| JList (l : list json)
| JDict (l : list (string * json)).

(** [json.dumps({"error": str(e)}, indent=2)] *)
Definition error_payload (msg : string) : json := JDict [("error", JStr msg)].

Module ScrapWebsite.
Record t : Type := {
  url : string;
  formats : option (list string);
  onlyMainContent : option bool
}.
End ScrapWebsite.

Module CrawlWebsite.
Record t : Type := {
  url : string;
  limit : Z;
  formats : option (list string);
  onlyMainContent : option bool
}.
End CrawlWebsite.

Module SearchWebsite.
Record t : Type := {
  query : string;
  limit : Z;
  formats : option (list string);
  onlyMainContent : option bool
}.
End SearchWebsite.

Module MapUrls.
Record t : Type := { url : string; limit : Z; search : string }.
End MapUrls.

Module ExtractContent.
Record t : Type := {
  urls : list string;
  prompt : option string;
  content_schema : option json
}.
End ExtractContent.

Module DeepResearch.
Record t : Type := {
  query : string;
  max_depth : option Z;
  time_limit : option Z
}.
End DeepResearch.

Record ScrapeOptions : Type := {
  so_formats : option (list string);
  so_onlyMainContent : option bool
}.

Module FirecrawlApp.
(** The client of the remote service ([firecrawl.FirecrawlApp], outside the
    program): every operation may change the world and may raise. *)
Record t (World Response : Type) : Type := {
  scrape_url : string → option (list string) → option bool → M World Response;
  crawl_url : string → Z → ScrapeOptions → M World Response;
  search : string → Z → ScrapeOptions → M World Response;
  map_url : string → Z → string → M World Response;
  extract : list string → option string → option json → M World Response;
  deep_research : string → option Z → option Z → string → string → M World Response
}.
Arguments scrape_url {World Response} _ _ _ _.
Arguments crawl_url {World Response} _ _ _ _.
Arguments search {World Response} _ _ _ _.
Arguments map_url {World Response} _ _ _ _.
Arguments extract {World Response} _ _ _ _.
Arguments deep_research {World Response} _ _ _ _ _ _.
End FirecrawlApp.

Definition analysis_prompt : string :=
  "Analyze the gathered information for the key ways AI is influencing the education sector. "
  +:+ "Focus on learning outcomes, personalized education, teacher support, and ethical implications.".

Definition system_prompt : string :=
  "You are a research assistant specializing in the intersection of AI and education. "
  +:+ "Your job is to analyze web-scraped content and summarize key themes and findings relevant to education.".

Section Dispatcher.
Context {World Response : Type}.
(** The module-level client [app]. *)
Variable app : FirecrawlApp.t World Response.
(** [r.model_dump()], [r.model_dump_json()] and [json.dumps(r, indent=2)]
    of a response; each may raise. *)
Variable model_dump : Response → M World json.
Variable model_dump_json : Response → M World json.
Variable json_dumps_response : Response → M World json.

Local Open Scope py_scope.

Definition scrape_website (params : ScrapWebsite.t) : M World json :=
  try_except
    (scrap <- FirecrawlApp.scrape_url app (ScrapWebsite.url params)
                (ScrapWebsite.formats params) (ScrapWebsite.onlyMainContent params) ;;
     model_dump scrap)
    (fun e => ret (error_payload e)).

Definition crawl_website (params : CrawlWebsite.t) : M World json :=
  try_except
    (let url := CrawlWebsite.url params in
     let limit := CrawlWebsite.limit params in
     let formats := CrawlWebsite.formats params in
     let maincontent := CrawlWebsite.onlyMainContent params in
     crawl <- FirecrawlApp.crawl_url app url limit
                {| so_formats := formats; so_onlyMainContent := maincontent |} ;;
     model_dump_json crawl)
    (fun e => ret (error_payload e)).

Definition search_website (params : SearchWebsite.t) : M World json :=
  let query := SearchWebsite.query params in
  let limit := SearchWebsite.limit params in
  try_except
    (search_result <- FirecrawlApp.search app query limit
                        {| so_formats := SearchWebsite.formats params;
                           so_onlyMainContent := SearchWebsite.onlyMainContent params |} ;;
     model_dump_json search_result)
    (fun e => ret (error_payload e)).

Definition map_links (params : MapUrls.t) : M World json :=
  try_except
    (search_result <- FirecrawlApp.map_url app (MapUrls.url params) (MapUrls.limit params)
                        (MapUrls.search params) ;;
     model_dump_json search_result)
    (fun e => ret (error_payload e)).

Definition extract_content (params : ExtractContent.t) : M World json :=
  try_except
    (extract_result <- FirecrawlApp.extract app (ExtractContent.urls params)
                         (ExtractContent.prompt params)
                         (ExtractContent.content_schema params) ;;
     model_dump_json extract_result)
    (fun e => ret (error_payload e)).

Definition deep_analysis (params : DeepResearch.t) : M World json :=
  try_except
    (research_result <- FirecrawlApp.deep_research app (DeepResearch.query params)
                          (DeepResearch.max_depth params) (DeepResearch.time_limit params)
                          analysis_prompt system_prompt ;;
     json_dumps_response research_result)
    (fun e => ret (error_payload e)).
End Dispatcher.

(** ** [get_available_tools] and the loop of [main] *)

(** [get_available_tools] *)
Definition get_available_tools {World : Type} : M (FirecrawlAgent World) (list string) :=
  gets (fun self => map name (tools self)).

(** The agent together with what has been printed on the terminal. *)
Definition Terminal (World : Type) : Type := FirecrawlAgent World * list string.

(** [print(line)] *)
Definition print {World : Type} (line : string) : M (Terminal World) unit :=
  fun st => (Return tt, (st.1, st.2 ++ [line])).

(** A method of the agent, run from [main]. *)
Definition on_agent {World A : Type} (mx : M (FirecrawlAgent World) A) : M (Terminal World) A :=
  fun st => let '(r, self) := mx st.1 in (r, (self, st.2)).

(** [user_input.lower() in ['quit', 'exit', 'bye']] *)
Definition is_quit (user_input : string) : bool :=
  existsb (String.eqb (lower user_input)) ["quit"; "exit"; "bye"].

Section Main.
Context {World : Type}.
Variable agent_run : string → M World string.
Variable json_dumps : gmap string value → string.
Variable repr_names : list string → string.
Local Open Scope py_scope.

(** The loop [while True:] of [main], [stdin] being the lines still to be
    read: [input] prints its prompt, returns the next line, and raises
    [EOFError] when there is none. *)
Fixpoint main_loop (stdin : list string) : M (Terminal World) unit :=
  match stdin with
  | [] => _ <- print "You: " ;; raise "EOF when reading a line"
  | line :: stdin' =>
      _ <- print "You: " ;;
      let user_input := strip line in
      if is_quit user_input then print "Goodbye!"
      else if String.eqb user_input EmptyString then main_loop stdin'
      else
        _ <- print (nl +:+ "Agent: Processing your request...") ;;
        response <- on_agent (process_request agent_run json_dumps repr_names user_input) ;;
        _ <- print ("Agent: " +:+ response +:+ nl) ;;
        main_loop stdin'
  end.

(** Requests processed one after the other. *)
Fixpoint run_requests (requests : list string) : M (FirecrawlAgent World) (list string) :=
  match requests with
  | [] => ret []
  | request :: requests' =>
      response <- process_request agent_run json_dumps repr_names request ;;
      responses <- run_requests requests' ;;
      ret (response :: responses)
  end.
End Main.

(** ** [firestream.py]: cleaning the output of a tool *)

(** The three patterns of [blacklist], compiled with [re.IGNORECASE]:
    svg+xml (the letters sv, one or more g, the letters xml),
    \bSponsored\b, and \d+ of \d+ bubbles. *)
Definition blacklist : list regex :=
  [ cat [lit_i "sv"; Plus (is_char_i "g"); lit_i "xml"];
    phrase_pattern "Sponsored";
    cat [digits1; lit_i " of "; digits1; lit_i " bubbles"] ].

(** [clean_text]: a value that is not a string is returned as it is. *)
Definition clean_text (text : json) : json :=
  match text with
  | JStr s => JStr (strip (fold_left (fun t pattern => re_delete pattern t) blacklist s))
  | other => other
  end.

(** [key in d] and [d.get(key, default)] for the pairs of a dictionary. *)
Fixpoint dict_lookup (key : string) (d : list (string * json)) : option json :=
  match d with
  | [] => None
  | (k, v) :: d' => if String.eqb k key then Some v else dict_lookup key d'
  end.

(** [d.get(key, default)] *)
Definition dict_get (key : string) (default : json) (d : list (string * json)) : json :=
  match dict_lookup key d with Some v => v | None => default end.

(** [type(x).__name__] *)
Definition type_name (x : json) : string :=
  match x with
  | JNull => "NoneType"
  | JBool _ => "bool"
  | JInt _ => "int"
  | JStr _ => "str"
  | JList _ => "list"
  | JDict _ => "dict"
  end.

(** The characters of a string, which iterating over it yields one by one. *)
Fixpoint chars (s : string) : list json :=
  match s with
  | EmptyString => []
  | String c s' => JStr (String c EmptyString) :: chars s'
  end.

(** [for item in items]: the elements of a list, the keys of a dictionary,
    the characters of a string; anything else raises [TypeError]. *)
Definition iterate (items : json) : outcome (list json) :=
  match items with
  | JList l => Return l
  | JDict d => Return (map (fun kv => JStr kv.1) d)
  | JStr s => Return (chars s)
  | other => Raise ("'" +:+ type_name other +:+ "' object is not iterable")
  end.

(** One element of the comprehension; [item.get] raises [AttributeError]
    when the item is not a dictionary. *)
Definition entry_of (item : json) : outcome json :=
  match item with
  | JDict d =>
      Return (JDict [("title", clean_text (dict_get "title" (JStr "Untitled") d));
                     ("description", clean_text (dict_get "description" (JStr EmptyString) d));
                     ("url", dict_get "url" (JStr EmptyString) d)])
  | other => Raise ("'" +:+ type_name other +:+ "' object has no attribute 'get'")
  end.

(** A comprehension [[f(x) for x in l]] whose body may raise. *)
Fixpoint collect {A B : Type} (f : A → outcome B) (l : list A) : outcome (list B) :=
  match l with
  | [] => Return []
  | x :: l' =>
      match f x with
      | Return y =>
          match collect f l' with
          | Return ys => Return (y :: ys)
          | Raise e => Raise e
          end
      | Raise e => Raise e
      end
  end.

(** [clean_web_output]: a dictionary gives the list of the entries of its
    items, a list is cleaned item by item, anything else is returned as it
    is. *)
Fixpoint clean_web_output (data : json) : outcome json :=
  match data with
  | JDict d =>
      let items :=
        match dict_lookup "data" d with
        | Some v => v
        | None =>
            match dict_lookup "results" d with
            | Some v => v
            | None => JList [data]
            end
        end in
      match iterate items with
      | Return l =>
          match collect entry_of l with
          | Return entries => Return (JList entries)
          | Raise e => Raise e
          end
      | Raise e => Raise e
      end
  | JList l =>
      match (fix each (l : list json) : outcome (list json) :=
               match l with
               | [] => Return []
               | item :: l' =>
                   match clean_web_output item with
                   | Return y =>
                       match each l' with
                       | Return ys => Return (y :: ys)
                       | Raise e => Raise e
                       end
                   | Raise e => Raise e
                   end
               end) l with
      | Return out => Return (JList out)
      | Raise e => Raise e
      end
  | other => Return other
  end.

(** ** [firestream.py]: from the answer of the model to a tool *)

Module ToolCall.
Record t : Type := { tool_name : string; params : json }.
End ToolCall.

(** An instance of one of the six parameter classes. *)
Inductive instance : Type :=
| IScrap (p : ScrapWebsite.t)
| ICrawl (p : CrawlWebsite.t)
| ISearch (p : SearchWebsite.t)
| IMap (p : MapUrls.t)
| IExtract (p : ExtractContent.t)
| IDeep (p : DeepResearch.t).

(** [d[key]] on a table in the order of its keys; a key that is missing
    raises [KeyError], whose message is the key between quotes. *)
Fixpoint table_get {A : Type} (key : string) (table : list (string * A)) : outcome A :=
  match table with
  | [] => Raise ("'" +:+ key +:+ "'")
  | (k, v) :: table' => if String.eqb k key then Return v else table_get key table'
  end.

(** The result of a constructor, wrapped as an instance. *)
Definition outcome_map {A B : Type} (f : A → B) (o : outcome A) : outcome B :=
  match o with Return a => Return (f a) | Raise e => Raise e end.

(** A computation without effect on the world. *)
Definition pure {World A : Type} (o : outcome A) : M World A := fun w => (o, w).

Section Streamlit.
Context {World Response : Type}.
Variable app : FirecrawlApp.t World Response.
Variable model_dump : Response → M World json.
Variable model_dump_json : Response → M World json.
Variable json_dumps_response : Response → M World json.
(** [PydanticOutputParser(pydantic_object=ToolCall).parse] and the
    constructors of the six parameter classes, which validate the
    dictionary they are given: all of them outside the program, without
    effect on the world, and free to raise. *)
Variable parse_tool_call : string → outcome ToolCall.t.
Variable make_scrap : json → outcome ScrapWebsite.t.
Variable make_crawl : json → outcome CrawlWebsite.t.
Variable make_search : json → outcome SearchWebsite.t.
Variable make_map : json → outcome MapUrls.t.
Variable make_extract : json → outcome ExtractContent.t.
Variable make_deep : json → outcome DeepResearch.t.

Local Open Scope py_scope.

(** [tool_schemas], which [tool_parsers] follows key by key. *)
Definition tool_schemas : list (string * (json → outcome instance)) :=
  [ ("crawl_website", fun d => outcome_map ICrawl (make_crawl d));
    ("scrap_website", fun d => outcome_map IScrap (make_scrap d));
    ("search_website", fun d => outcome_map ISearch (make_search d));
    ("map_links", fun d => outcome_map IMap (make_map d));
    ("extract_content", fun d => outcome_map IExtract (make_extract d));
    ("deep_analysis", fun d => outcome_map IDeep (make_deep d)) ].

(** [tool.invoke] on an instance of another class than the one the tool
    takes: the validation of the input raises. *)
Definition refused : M World json := raise "validation error for params".

(** [tool_mapping]; [tool.invoke] runs the tool on an instance of its own
    parameter class. *)
Definition tool_mapping : list (string * (instance → M World json)) :=
  [ ("scrape_website",
     fun x => match x with IScrap p => scrape_website app model_dump p | _ => refused end);
    ("crawl_website",
     fun x => match x with ICrawl p => crawl_website app model_dump_json p | _ => refused end);
    ("search_website",
     fun x => match x with ISearch p => search_website app model_dump_json p | _ => refused end);
    ("map_links",
     fun x => match x with IMap p => map_links app model_dump_json p | _ => refused end);
    ("extract_content",
     fun x => match x with
              | IExtract p => extract_content app model_dump_json p
              | _ => refused
              end);
    ("deep_analysis",
     fun x => match x with
              | IDeep p => deep_analysis app json_dumps_response p
              | _ => refused
              end) ].

(** [process_user_prompt].  The output of a tool is JSON text, or a
    dictionary for which [json.loads] raises and which is kept as it is:
    either way the result is the data the output stands for. *)
Definition process_user_prompt (json_text : string) : M World json :=
  tool_call <- pure (parse_tool_call json_text) ;;
  selected_parser <- pure (table_get (ToolCall.tool_name tool_call) tool_schemas) ;;
  parsed_params <- pure (selected_parser (ToolCall.params tool_call)) ;;
  tool <- pure (table_get (ToolCall.tool_name tool_call) tool_mapping) ;;
  tool_output <- tool parsed_params ;;
  ret tool_output.
End Streamlit.

(** ** [firestream.py]: the typewriter *)




(** ** [firestream.py]: formatting, and a turn of the chat *)

Section Chat.
Context {World Response : Type}.
Variable app : FirecrawlApp.t World Response.
Variable model_dump : Response → M World json.
Variable model_dump_json : Response → M World json.
Variable json_dumps_response : Response → M World json.
Variable parse_tool_call : string → outcome ToolCall.t.
Variable make_scrap : json → outcome ScrapWebsite.t.
Variable make_crawl : json → outcome CrawlWebsite.t.
Variable make_search : json → outcome SearchWebsite.t.
Variable make_map : json → outcome MapUrls.t.
Variable make_extract : json → outcome ExtractContent.t.
Variable make_deep : json → outcome DeepResearch.t.
(** [json.dumps(raw_output, indent=2)] and [str(raw_output)] of JSON data,
    the text of the prompt around the content, and
    [llm.invoke(format_prompt).content], which may raise. *)
Variable json_dumps_indent : json → string.
Variable str_of : json → string.
Variable format_prompt : string → string.
Variable llm_invoke : string → M World string.

Local Open Scope py_scope.

(** [gemini_llm_response] *)
Definition gemini_llm_response (raw_output : json) : M World string :=
  try_except
    (let content :=
       match raw_output with
       | JDict _ | JList _ => json_dumps_indent raw_output
       | _ => str_of raw_output
       end in
     llm_invoke (format_prompt content))
    (fun e => ret ("Error formatting complex response: " +:+ e)).

(** What the page does with the answer [output_text] of the parsing model
    to a new prompt, up to the response it shows: the status widgets and the
    chat history are left out. *)
Definition chat_turn (output_text : string) : M World string :=
  llm_output <- process_user_prompt app model_dump model_dump_json json_dumps_response
                  parse_tool_call make_scrap make_crawl make_search make_map make_extract
                  make_deep output_text ;;
  clean_data <- pure (clean_web_output llm_output) ;;
  final_llm_response <- gemini_llm_response clean_data ;;
  ret final_llm_response.
End Chat.

(** * Statements

    The definitions below are not part of the program: they name the notions
    the properties are stated with. *)

(** ** Selection *)

(** A rule of the catalog entry [entry] matches the text. *)
Definition rule_matches (entry : string * list regex) (text : string) : Prop :=
  ∃ pattern, pattern ∈ entry.2 ∧ is_Some (re_search pattern text).

(** A list of keywords is mentioned when one of them occurs in the text. *)
Definition mentions (keywords : list string) (text : string) : Prop :=
  ∃ keyword, keyword ∈ keywords ∧ contains keyword text = true.

Definition url_like : list string := ["http"; "www"; ".com"; ".org"; ".net"].
Definition crawl_intent : list string := ["crawl"; "multiple"; "pages"; "limit"].
Definition link_intent : list string := ["links"; "map"; "discover"].
Definition search_intent : list string := ["search"; "find"].


(** ** Determinism *)

Section SelectAndExtract.
Context {World : Type}.
Local Open Scope py_scope.


End SelectAndExtract.

(** ** Formats, validation, limits *)

(** A whole word: the letters of [word] between two word boundaries,
    the pattern \bword\b. *)
Definition spec_has_token (word text : string) : bool :=
  match re_search (cat [WordB; lit word; WordB]) text with
  | Some _ => true
  | None => false
  end.

(** The claim of C7 at one text, a token being a whole word. *)
Definition format_by_token (text : string) : Prop :=
  let low := lower text in
  extract text "scrape_website" !! "formats" =
  if spec_has_token "html" low then Some (VList ["html"])
  else if spec_has_token "json" low then Some (VList ["json"])
  else if spec_has_token "markdown" low || spec_has_token "md" low then Some (VList ["markdown"])
  else None.

(** A required parameter the validator objects to: it is not in the
    argument set, or its value does not pass the test [is_set]. *)
Definition unset (is_set : value → bool) (params : gmap string value) (param : string) : Prop :=
  params !! param = None ∨ ∃ v, params !! param = Some v ∧ is_set v = false.

(** Emptiness in the words of the specification: the empty string and the
    empty list are empty, the integer zero counts as present. *)
Definition spec_nonempty (v : value) : bool :=
  match v with
  | VStr EmptyString => false
  | VList [] => false
  | _ => true
  end.

(** The claim of C2 at one operation and one argument set. *)
Definition rejects_only_empty (tool_name : string) (params : gmap string value) : Prop :=
  ∀ required, lookup_required required_params tool_name = Some required →
    (_validate_parameters tool_name params = false ↔
     ∃ param, param ∈ required ∧ unset spec_nonempty params param).

(** The scheme of the specification for the limit: the keyword form, else a
    number before pages, links or results, else the default. *)
Definition spec_three_step_limit (default : Z) (low : string) : Z :=
  match re_search limit_pattern low with
  | Some x => int (group x)
  | None =>
      match re_search number_pattern low with
      | Some x => int (group x)
      | None => default
      end
  end.

(** The claim of C4 at its example: the argument set holds the query
    without the limit phrase. *)
Definition example_query_without_limit : Prop :=
  extract "search for rust async runtimes limit 5" "search_website"
  = <["query" := VStr "rust async runtimes"]> (<["limit" := VInt 5]> ∅).

(** ** The fallback of [process_request] *)



(** ** Removing the command phrases *)

(** The removal of a phrase in the words of the specification, without
    regular expressions: the phrase is recognised where the characters of
    the text are those of the phrase up to letter case, with a word
    boundary just before and just after. *)
Fixpoint same_letters (phrase s : string) : bool :=
  match phrase, s with
  | EmptyString, _ => true
  | String a phrase', String c s' =>
      Ascii.eqb (lower_char a) (lower_char c) && same_letters phrase' s'
  | String _ _, EmptyString => false
  end.

(** A word boundary lies between a word character and a character that is
    not one, the ends of the text counting as not one. *)
Definition boundary (before after : option ascii) : bool :=
  xorb (word_at before) (word_at after).

(** The character just before position [n] of [s], [prev] being the one
    before [s]. *)
Fixpoint char_before (n : nat) (prev : option ascii) (s : string) : option ascii :=
  match n, s with
  | O, _ => prev
  | S n', String c s' => char_before n' (Some c) s'
  | S _, EmptyString => prev
  end.

Definition spec_phrase_at (phrase : string) (prev : option ascii) (s : string) : bool :=
  let n := String.length phrase in
  boundary prev (first_char s) && same_letters phrase s
  && boundary (char_before n prev s) (first_char (slice_from n s)).

Fixpoint spec_remove_from (phrase : string) (prev : option ascii) (s : string) (skip : nat)
    : string :=
  match s with
  | EmptyString => EmptyString
  | String c s' =>
      match skip with
      | S skip' => spec_remove_from phrase (Some c) s' skip'
      | O =>
          if spec_phrase_at phrase prev s
          then spec_remove_from phrase (Some c) s' (String.length phrase - 1)
          else String c (spec_remove_from phrase (Some c) s' 0)
      end
  end.

Definition spec_remove_phrase (phrase s : string) : string := spec_remove_from phrase None s 0.

(** ** Failures *)


(** What [process_request] hands back to its caller: the rendered result of
    a tool that returned, the reply of the free-form fallback, or a message
    that reports an error. *)
Inductive answer {World : Type} (agent_run : string → M World string)
    (json_dumps : gmap string value → string) (repr_names : list string → string)
    (user_input : string) (self : FirecrawlAgent World) : string → Prop :=
| rendered_result (tool : Tool World) (tool_name : string) (params : gmap string value)
    (result : string) (w : World) :
    tool ∈ tools self →
    _run tool params (world self) = (Return result, w) →
    answer agent_run json_dumps repr_names user_input self
      ("Tool: " +:+ tool_name +:+ nl +:+ "Parameters: " +:+ json_dumps params
       +:+ nl +:+ "Result: " +:+ result)
| fallback_reply (reply : string) (w : World) :
    agent_run user_input (world self) = (Return reply, w) →
    answer agent_run json_dumps repr_names user_input self reply
| tool_error (tool : Tool World) (params : gmap string value) (e : string) (w : World) :
    tool ∈ tools self →
    _run tool params (world self) = (Raise e, w) →
    answer agent_run json_dumps repr_names user_input self
      ("Error processing request: " +:+ e)
| fallback_error (e : string) (w : World) :
    agent_run user_input (world self) = (Raise e, w) →
    answer agent_run json_dumps repr_names user_input self
      ("Error processing request: " +:+ e)
| not_found_message (tool_name : string) :
    answer agent_run json_dumps repr_names user_input self
      ("Tool '" +:+ tool_name +:+ "' not found. Available tools: "
       +:+ repr_names (map name (tools self))).

(** ** What a pattern matches *)

(** A position in a text: the character before it, the text from it on and
    the capture made so far. *)
Definition position : Type := option ascii * string * option string.

(** The matches of a regular expression, declaratively: [matches r a b]
    when [r] can consume the text between the positions [a] and [b]. *)
Inductive matches : regex → position → position → Prop :=
| matches_eps a : matches Eps a a
| matches_chr (p : ascii → bool) prev c s g :
    p c = true → matches (Chr p) (prev, String c s, g) (Some c, s, g)
| matches_seq r1 r2 a b c :
    matches r1 a b → matches r2 b c → matches (Seq r1 r2) a c
| matches_alt_l r1 r2 a b : matches r1 a b → matches (Alt r1 r2) a b
| matches_alt_r r1 r2 a b : matches r2 a b → matches (Alt r1 r2) a b
| matches_opt_some r a b : matches r a b → matches (Opt r) a b
| matches_opt_none r a : matches (Opt r) a a
| matches_star_nil p a : matches (Star p) a a
| matches_star_cons (p : ascii → bool) prev c s g b :
    p c = true → matches (Star p) (Some c, s, g) b →
    matches (Star p) (prev, String c s, g) b
| matches_plus (p : ascii → bool) prev c s g b :
    p c = true → matches (Star p) (Some c, s, g) b →
    matches (Plus p) (prev, String c s, g) b
| matches_group r prev s g prev' s' g' :
    matches r (prev, s, g) (prev', s', g') →
    matches (Group r) (prev, s, g) (prev', s', Some (consumed s s'))
| matches_wordb prev s g :
    xorb (word_at prev) (word_at (first_char s)) = true →
    matches WordB (prev, s, g) (prev, s, g).

(** The text left at a position, and the group captured so far. *)
Definition text_of (a : position) : string := a.1.2.
Definition capture_of (a : position) : option string := a.2.

(** Every character of the string satisfies the predicate. *)
Fixpoint all_chars (p : ascii → bool) (s : string) : bool :=
  match s with
  | EmptyString => true
  | String c s' => p c && all_chars p s'
  end.

(** The captures of a pattern are runs of the class [p] when each of its
    groups is [(p+)]. *)
Fixpoint captures_runs (p : ascii → bool) (r : regex) : Prop :=
  match r with
  | Seq r1 r2 | Alt r1 r2 => captures_runs p r1 ∧ captures_runs p r2
  | Opt r1 => captures_runs p r1
  | Group r1 => r1 = Plus p
  | _ => True
  end.

(** The group is as it was, or a non-empty run of characters of the class. *)
Definition run_or (p : ascii → bool) (g g' : option string) : Prop :=
  g' = g ∨ ∃ d, g' = Some d ∧ d ≠ EmptyString ∧ all_chars p d = true.

(** ** Extracted arguments *)

(** The characters a URL may continue with. *)
Definition url_char : ascii → bool :=
  none_of true [60; 62; 34; 123; 125; 124; 92; 94; 96; 91; 93]%N.

(** A non-empty string of characters of the class. *)
Definition nonempty_run (p : ascii → bool) (s : string) : bool :=
  match s with EmptyString => false | _ => all_chars p s end.

(** A well-formed URL token: http:// or https:// and then one or more
    characters, none of them white space or excluded punctuation. *)
Definition well_formed_url (u : string) : bool :=
  (startswith "http://" u && nonempty_run url_char (slice_from 7 u))
  || (startswith "https://" u && nonempty_run url_char (slice_from 8 u)).

(** The text [u] occurs in [text]. *)
Definition occurs_in (u text : string) : Prop :=
  ∃ before after, text = before +:+ u +:+ after.


(** The last character of a string. *)
Fixpoint last_char (s : string) : option ascii :=
  match s with
  | EmptyString => None
  | String c EmptyString => Some c
  | String _ s' => last_char s'
  end.

(** There is a character and it is white space. *)
Definition space_at (o : option ascii) : bool :=
  match o with Some c => is_space c | None => false end.

(** A trimmed string neither begins nor ends with white space. *)
Definition trimmed (s : string) : bool :=
  negb (space_at (first_char s)) && negb (space_at (last_char s)).

(** [lower] changes no character of a string that is already in lower
    case. *)
Definition is_lower (s : string) : bool := String.eqb (lower s) s.

(** Lower-casing leaves the character as it is. *)
Definition char_lower (c : ascii) : bool := Ascii.eqb (lower_char c) c.

(** The group, when set, holds characters of the class only. *)
Definition capture_all (q : ascii → bool) (g : option string) : bool :=
  match g with Some d => all_chars q d | None => true end.

(** The characters a filter term may hold: any but the comma, the period
    and the newline. *)
Definition term_char : ascii → bool := none_of false [44; 46; 10]%N.

(** The indicators of the query of [deep_analysis], in their order. *)
Definition query_indicators : list string := ["research"; "analyze"; "analysis of"; "study"].

(** ** The tools and the loop of [main] *)

(** The names of the six operations. *)
Definition tool_names : list string :=
  ["scrape_website"; "crawl_website"; "search_website"; "map_links"; "extract_content";
   "deep_analysis"].

(** The lines before the first one that asks to quit. *)
Fixpoint before_quit (lines : list string) : list string :=
  match lines with
  | [] => []
  | line :: lines' => if is_quit (strip line) then [] else line :: before_quit lines'
  end.

(** The requests among the lines typed: the lines before the first quit
    word, trimmed, without the blank ones. *)
Definition requests_of (lines : list string) : list string :=
  filter (fun request => request ≠ EmptyString) (strip <$> before_quit lines).

(** Some line, trimmed, is one of the quit words. *)
Definition asks_to_quit (lines : list string) : bool :=
  existsb (fun line => is_quit (strip line)) lines.

(** The lines on which [main] prints a response. *)
Definition is_response (line : string) : bool := startswith "Agent: " line.


(** ** [firestream.py] *)

(** [isinstance(x, dict)] *)
Definition is_dict (x : json) : bool :=
  match x with JDict _ => true | _ => false end.

(** The keys of a dictionary, in their order. *)
Definition keys_of (x : json) : list string :=
  match x with JDict d => map fst d | _ => [] end.

(** The entry made for an item that has no title, description or URL. *)
Definition placeholder : json :=
  JDict [("title", JStr "Untitled"); ("description", JStr EmptyString);
         ("url", JStr EmptyString)].

(** The value [clean_web_output] iterates over for a dictionary. *)
Definition items_of (d : list (string * json)) : json :=
  match dict_lookup "data" d with
  | Some v => v
  | None =>
      match dict_lookup "results" d with
      | Some v => v
      | None => JList [JDict d]
      end
  end.

(** The names under which both tables of [firestream.py] have an entry. *)
Definition shared_names : list string :=
  ["crawl_website"; "search_website"; "map_links"; "extract_content"; "deep_analysis"].

(** The pattern that [re] reads in the blacklist entry svg+xml. *)
Definition svg_pattern : regex := cat [lit_i "sv"; Plus (is_char_i "g"); lit_i "xml"].






(** A client, a parser and constructors to try [process_user_prompt] on: a
    world without content, a client whose calls all raise, and a model
    whose answer names scrape_website. *)
Definition offline_app : FirecrawlApp.t unit unit :=
  {| FirecrawlApp.scrape_url := fun _ _ _ => raise "offline";
     FirecrawlApp.crawl_url := fun _ _ _ => raise "offline";
     FirecrawlApp.search := fun _ _ _ => raise "offline";
     FirecrawlApp.map_url := fun _ _ _ => raise "offline";
     FirecrawlApp.extract := fun _ _ _ => raise "offline";
     FirecrawlApp.deep_research := fun _ _ _ _ _ => raise "offline" |}.

(** A rendering that always gives [null]. *)
Definition offline_dump (response : unit) : M unit json := ret JNull.

(** The tool call of a request to scrape a page. *)
Definition scrape_call : ToolCall.t :=
  {| ToolCall.tool_name := "scrape_website";
     ToolCall.params := JDict [("url", JStr "https://a.io")] |}.

(** A constructor that rejects every dictionary. *)
Definition invalid {A : Type} (d : json) : outcome A := Raise "validation error".

(** The call of the remote service that the tool of an instance makes. *)
Definition remote_call {World Response : Type} (app : FirecrawlApp.t World Response)
    (x : instance) : M World Response :=
  match x with
  | IScrap p =>
      FirecrawlApp.scrape_url app (ScrapWebsite.url p) (ScrapWebsite.formats p)
        (ScrapWebsite.onlyMainContent p)
  | ICrawl p =>
      FirecrawlApp.crawl_url app (CrawlWebsite.url p) (CrawlWebsite.limit p)
        {| so_formats := CrawlWebsite.formats p;
           so_onlyMainContent := CrawlWebsite.onlyMainContent p |}
  | ISearch p =>
      FirecrawlApp.search app (SearchWebsite.query p) (SearchWebsite.limit p)
        {| so_formats := SearchWebsite.formats p;
           so_onlyMainContent := SearchWebsite.onlyMainContent p |}
  | IMap p => FirecrawlApp.map_url app (MapUrls.url p) (MapUrls.limit p) (MapUrls.search p)
  | IExtract p =>
      FirecrawlApp.extract app (ExtractContent.urls p) (ExtractContent.prompt p)
        (ExtractContent.content_schema p)
  | IDeep p =>
      FirecrawlApp.deep_research app (DeepResearch.query p) (DeepResearch.max_depth p)
        (DeepResearch.time_limit p) analysis_prompt system_prompt
  end.

(** A model whose answer asks for a search, and a constructor that accepts
    it. *)
Definition search_call : ToolCall.t :=
  {| ToolCall.tool_name := "search_website";
     ToolCall.params := JDict [("query", JStr "tea"); ("limit", JInt 5)] |}.

(** The parameters of a search for tea. *)
Definition tea_search : SearchWebsite.t :=
  {| SearchWebsite.query := "tea"; SearchWebsite.limit := 5;
     SearchWebsite.formats := None; SearchWebsite.onlyMainContent := None |}.

(** * Properties *)

(** ** Strings and searches *)

Lemma contains_here (p s : string) : startswith p s = true → contains p s = true.
Proof. intros H. destruct s; simpl in *; rewrite H; reflexivity. Qed.

Lemma contains_later (p : string) (c : ascii) (s : string) :
  contains p s = true → contains p (String c s) = true.
Proof. intros H. simpl. rewrite H. apply orb_true_r. Qed.



Lemma any_pattern_true (patterns : list regex) (text : string) :
  any_pattern patterns text = true ↔
  ∃ pattern, pattern ∈ patterns ∧ is_Some (re_search pattern text).
Proof.
  induction patterns as [|p ps IH]; simpl.
  - split; [discriminate|]. intros (q & Hq & _). inversion Hq.
  - destruct (re_search p text) as [x|] eqn:E.
    + split; [|reflexivity]. intros _. exists p. split; [left|]. rewrite E. eauto.
    + rewrite IH. split.
      * intros (q & Hq & Hs). exists q. split; [right; exact Hq|exact Hs].
      * intros (q & Hq & Hs). apply elem_of_cons in Hq as [->|Hq].
        -- rewrite E in Hs. destruct Hs as [? Hs]. discriminate.
        -- exists q. split; assumption.
Qed.

Lemma any_pattern_false (patterns : list regex) (text : string) :
  any_pattern patterns text = false ↔
  ∀ pattern, pattern ∈ patterns → re_search pattern text = None.
Proof.
  induction patterns as [|p ps IH]; simpl.
  - split; [|reflexivity]. intros _ q Hq. inversion Hq.
  - destruct (re_search p text) as [x|] eqn:E.
    + split; [discriminate|]. intros H. specialize (H p (list_elem_of_here _ _)).
      congruence.
    + rewrite IH. split.
      * intros H q Hq. apply elem_of_cons in Hq as [->|Hq]; [exact E|apply H, Hq].
      * intros H q Hq. apply H. right. exact Hq.
Qed.

(** The loop over the catalog stops at the first entry with a matching
    rule: every entry before it has none. *)
Lemma first_tool_Some (items : list (string * list regex)) (text tool_name : string) :
  first_tool items text = Some tool_name →
  ∃ before patterns after,
    items = before ++ (tool_name, patterns) :: after ∧
    (∀ entry, entry ∈ before → any_pattern entry.2 text = false) ∧
    any_pattern patterns text = true.
Proof.
  induction items as [|[n ps] items IH]; simpl; [discriminate|].
  destruct (any_pattern ps text) eqn:E.
  - intros [= <-]. exists [], ps, items. split; [reflexivity|]. split; [|exact E].
    intros entry H. inversion H.
  - intros H. destruct (IH H) as (before & patterns & after & -> & Hb & Hp).
    exists ((n, ps) :: before), patterns, after. split; [reflexivity|]. split; [|exact Hp].
    intros entry He. apply elem_of_cons in He as [->|He]; [exact E|apply Hb, He].
Qed.

Lemma first_tool_None (items : list (string * list regex)) (text : string) :
  first_tool items text = None →
  ∀ entry, entry ∈ items → any_pattern entry.2 text = false.
Proof.
  induction items as [|[n ps] items IH]; simpl; intros H entry He.
  - inversion He.
  - destruct (any_pattern ps text) eqn:E; [discriminate|].
    apply elem_of_cons in He as [->|He]; [exact E|apply IH; assumption].
Qed.



Lemma any_in_mentions (keywords : list string) (text : string) :
  any_in keywords text = true ↔ mentions keywords text.
Proof.
  unfold any_in, mentions. rewrite existsb_exists. split.
  - intros (k & Hk & H). exists k. split; [apply list_elem_of_In, Hk|exact H].
  - intros (k & Hk & H). exists k. split; [apply list_elem_of_In, Hk|exact H].
Qed.

Lemma any_in_not_mentions (keywords : list string) (text : string) :
  any_in keywords text = false ↔ ¬ mentions keywords text.
Proof.
  rewrite <- any_in_mentions. destruct (any_in keywords text); split; congruence.
Qed.

(** ** The examples of the specification *)

Example crawl_example :
  eval (identify_tool "crawl https://example.com limit 15 pages") (init (World := unit) [] tt)
  = Return (Some "crawl_website") ∧
  extract "crawl https://example.com limit 15 pages" "crawl_website"
  = <["url" := VStr "https://example.com"]> (<["limit" := VInt 15]> ∅).
Proof. split; vm_compute; reflexivity. Qed.

Example map_example :
  extract "map links about pricing on https://site.io limit 30" "map_links"
  = <["url" := VStr "https://site.io"]>
      (<["search" := VStr "pricing on https://site"]> (<["limit" := VInt 30]> ∅)).
Proof. vm_compute. reflexivity. Qed.

Example research_example :
  extract "research on quantum computing depth 3 timeout 2 minutes" "deep_analysis"
  = <["query" := VStr "on quantum computing depth 3 timeout 2 minutes"]>
      (<["max_depth" := VInt 3]> (<["time_limit" := VInt 120]> ∅)).
Proof. vm_compute. reflexivity. Qed.

Example no_keyword_example :
  eval (identify_tool "hello there") (init (World := unit) [] tt) = Return None.
Proof. vm_compute. reflexivity. Qed.

(** ** Selection *)

(** [identify_tool] reads the catalog of [self] and changes nothing. *)
Lemma identify_tool_run (World : Type) (self : FirecrawlAgent World) (text : string) :
  identify_tool text self =
  (Return (match first_tool (tool_patterns self) (lower text) with
           | Some tool_name => Some tool_name
           | None => fallback_tool (lower text)
           end), self).
Proof.
  unfold identify_tool, bind, gets.
  destruct (first_tool (tool_patterns self) (lower text)); reflexivity.
Qed.

(** C1. [identify_tool] returns the first operation, in the order of the
    catalog, one of whose rules is found in the lower-cased text; when no
    rule of the catalog is found it decides by the fallback keywords, in
    this order: URL-like text with a crawl keyword gives [crawl_website],
    URL-like text with a link keyword gives [map_links], URL-like text alone
    gives [scrape_website], a search keyword gives [search_website], and
    otherwise the result is [None]. *)
Theorem identify_tool_priority (World : Type) (ts : list (Tool World)) (w : World)
    (text : string) :
  let low := lower text in
  let selected := eval (identify_tool text) (init ts w) in
  (∃ before tool_name patterns after,
      the_tool_patterns = before ++ (tool_name, patterns) :: after ∧
      (∀ entry, entry ∈ before → ¬ rule_matches entry low) ∧
      rule_matches (tool_name, patterns) low ∧
      selected = Return (Some tool_name))
  ∨
  ((∀ entry, entry ∈ the_tool_patterns → ¬ rule_matches entry low) ∧
   (mentions url_like low ∧ mentions crawl_intent low →
      selected = Return (Some "crawl_website")) ∧
   (mentions url_like low ∧ ¬ mentions crawl_intent low ∧ mentions link_intent low →
      selected = Return (Some "map_links")) ∧
   (mentions url_like low ∧ ¬ mentions crawl_intent low ∧ ¬ mentions link_intent low →
      selected = Return (Some "scrape_website")) ∧
   (¬ mentions url_like low ∧ mentions search_intent low →
      selected = Return (Some "search_website")) ∧
   (¬ mentions url_like low ∧ ¬ mentions search_intent low →
      selected = Return None)).
Proof.
  intros low selected.
  assert (Hsel : selected =
            Return (match first_tool the_tool_patterns low with
                    | Some tool_name => Some tool_name
                    | None => fallback_tool low
                    end)).
  { unfold selected, eval. rewrite identify_tool_run. reflexivity. }
  destruct (first_tool the_tool_patterns low) as [t|] eqn:E.
  - left. destruct (first_tool_Some _ _ _ E) as (before & patterns & after & Hs & Hb & Hp).
    exists before, t, patterns, after. split; [exact Hs|]. split; [|split; [|exact Hsel]].
    + intros entry He (p & Hp1 & Hp2).
      pose proof (proj1 (any_pattern_false _ _) (Hb entry He) p Hp1) as Hn.
      rewrite Hn in Hp2. destruct Hp2 as [? Hp2]. discriminate.
    + apply any_pattern_true. exact Hp.
  - right. split.
    + intros entry He (p & Hp1 & Hp2).
      pose proof (proj1 (any_pattern_false _ _) (first_tool_None _ _ E entry He) p Hp1) as Hn.
      rewrite Hn in Hp2. destruct Hp2 as [? Hp2]. discriminate.
    + rewrite Hsel. unfold fallback_tool.
      fold url_like crawl_intent link_intent search_intent.
      repeat split.
      * intros [Hu Hc]. apply any_in_mentions in Hu, Hc. rewrite Hu, Hc. reflexivity.
      * intros (Hu & Hc & Hl). apply any_in_mentions in Hu, Hl.
        apply any_in_not_mentions in Hc. rewrite Hu, Hc, Hl. reflexivity.
      * intros (Hu & Hc & Hl). apply any_in_mentions in Hu.
        apply any_in_not_mentions in Hc, Hl. rewrite Hu, Hc, Hl. reflexivity.
      * intros (Hu & Hs). apply any_in_mentions in Hs.
        apply any_in_not_mentions in Hu. rewrite Hu, Hs. reflexivity.
      * intros (Hu & Hs). apply any_in_not_mentions in Hu, Hs. rewrite Hu, Hs. reflexivity.
Qed.

#[local] Arguments Ascii.eqb : simpl never.
#[local] Arguments is_char : simpl never.







(** ** Determinism *)

Section Determinism.
Context {World : Type}.


End Determinism.

(** ** Formats of [scrape_website] *)

Lemma set_url_other (urls : list string) (key : string) :
  key ≠ "url" → set_url urls ∅ !! key = (None : option value).
Proof.
  intros H. destruct urls as [|u urls]; simpl.
  - apply lookup_empty.
  - rewrite lookup_insert_ne by congruence. apply lookup_empty.
Qed.

(** C7, counterexample.  The letters html occur in the text below only
    inside the longer word xhtml, and the format is set to html all the
    same. *)
Lemma format_by_token_counterexample :
  ¬ format_by_token "scrape the page https://a.io as xhtml".
Proof. unfold format_by_token. vm_compute. discriminate. Qed.

(** C7, amended.  For [scrape_website] the format is html exactly when the
    lower-cased text contains the letters html anywhere, also inside a
    longer word; otherwise json when it contains json; otherwise markdown
    when it contains markdown or md; otherwise no format is set. *)
Theorem format_by_substring (text : string) :
  let low := lower text in
  extract text "scrape_website" !! "formats" =
  if contains "html" low then Some (VList ["html"])
  else if contains "json" low then Some (VList ["json"])
  else if contains "markdown" low || contains "md" low then Some (VList ["markdown"])
  else None.
Proof.
  intros low. change (extract text "scrape_website") with (extract_scrape text).
  unfold extract_scrape. fold low.
  assert (Hu : set_url (re_findall url_pattern text) ∅ !! "formats" = None)
    by (apply set_url_other; discriminate).
  destruct (any_in ["main content"; "only content"; "no navigation"] low);
    [rewrite lookup_insert_ne by discriminate|];
    (destruct (contains "html" low); [apply lookup_insert_eq|]);
    (destruct (contains "json" low); [apply lookup_insert_eq|]);
    (destruct (contains "markdown" low || contains "md" low);
       [apply lookup_insert_eq|exact Hu]).
Qed.

(** ** Validation *)

Lemma all_present_false (required : list string) (params : gmap string value) :
  all_present required params = false ↔
  ∃ param, param ∈ required ∧ unset truthy params param.
Proof.
  induction required as [|p required IH]; simpl.
  - split; [discriminate|]. intros (q & Hq & _). inversion Hq.
  - destruct (params !! p) as [v|] eqn:E.
    + destruct (truthy v) eqn:T.
      * rewrite IH. split.
        -- intros (q & Hq & Hu). exists q. split; [right; exact Hq|exact Hu].
        -- intros (q & Hq & Hu). apply elem_of_cons in Hq as [->|Hq].
           ++ destruct Hu as [Hu|(v' & Hv' & Hf)]; congruence.
           ++ exists q. split; assumption.
      * split; [|reflexivity]. intros _. exists p. split; [left|].
        right. exists v. split; [exact E|exact T].
    + split; [|reflexivity]. intros _. exists p. split; [left|]. left. exact E.
Qed.

(** C2, counterexample.  With a URL and the limit 0 every required argument
    of [crawl_website] is there and none is empty, and the validator
    returns false. *)
Lemma rejects_only_empty_counterexample :
  ¬ rejects_only_empty "crawl_website"
      (<["url" := VStr "https://example.com"]> (<["limit" := VInt 0]> ∅)).
Proof.
  intros H. specialize (H ["url"; "limit"] eq_refl).
  destruct (proj1 H) as (p & Hp & Hu); [vm_compute; reflexivity|].
  apply elem_of_cons in Hp as [->|Hp];
    [|apply elem_of_cons in Hp as [->|Hp]; [|inversion Hp]];
    destruct Hu as [Hu|(v & Hv & Hn)]; vm_compute in Hu || vm_compute in Hv;
    try discriminate; injection Hv as <-; discriminate.
Qed.

(** C2, amended.  For every known operation the validator returns false
    exactly when some required argument is missing from the argument set
    or its value is false in Python's sense: the empty string, the empty
    list, [False], and also the integer zero. *)
Theorem validate_rejects_falsy (tool_name : string) (required : list string)
    (params : gmap string value) :
  lookup_required required_params tool_name = Some required →
  (_validate_parameters tool_name params = false ↔
   ∃ param, param ∈ required ∧ unset truthy params param)
  ∧ truthy (VInt 0) = false ∧ truthy (VStr EmptyString) = false
  ∧ truthy (VList []) = false ∧ truthy (VBool false) = false.
Proof.
  intros H. split; [|repeat split].
  unfold _validate_parameters. rewrite H. apply all_present_false.
Qed.

Lemma validate_rejects_falsy_witness :
  _validate_parameters "crawl_website"
    (<["url" := VStr "https://example.com"]> (<["limit" := VInt 0]> ∅)) = false.
Proof.
  destruct (validate_rejects_falsy "crawl_website" ["url"; "limit"]
              (<["url" := VStr "https://example.com"]> (<["limit" := VInt 0]> ∅)) eq_refl)
    as [H _].
  apply H. exists "limit". split; [right; left|].
  right. exists (VInt 0). split; [vm_compute|]; reflexivity.
Defined.

(** ** [map_links] without a filter term *)

Section FilterTerm.
Context {World : Type}.
Variable agent_run : string → M World string.
Variable json_dumps : gmap string value → string.
Variable repr_names : list string → string.



End FilterTerm.


(** ** Limits *)

Lemma crawl_limit_three_steps (text : string) :
  extract text "crawl_website" !! "limit" = Some (VInt (spec_three_step_limit 10 (lower text))).
Proof.
  change (extract text "crawl_website") with (extract_crawl text).
  unfold extract_crawl. apply lookup_insert_eq.
Qed.

Lemma search_limit_two_steps (text : string) :
  extract text "search_website" !! "limit" = Some (VInt (limit_or 10 (lower text))).
Proof.
  change (extract text "search_website") with (extract_search text).
  unfold extract_search. apply lookup_insert_eq.
Qed.

Lemma map_limit_two_steps (text : string) :
  extract text "map_links" !! "limit" = Some (VInt (limit_or 20 (lower text))).
Proof.
  change (extract text "map_links") with (extract_map text).
  unfold extract_map. apply lookup_insert_eq.
Qed.

(** C3, the code at two failing inputs.  [crawl_website] follows the three
    steps for every text, but [search_website] and [map_links] skip the
    second one: a request for 5 results, or for 5 links, is selected as
    [search_website], respectively [map_links], and gets the default 10,
    respectively 20, where the scheme gives 5. *)
Theorem limit_number_step_skipped :
  let request1 := "find websites about rust 5 results" in
  let request2 := "list links on https://a.io 5 links" in
  (∀ text, extract text "crawl_website" !! "limit"
           = Some (VInt (spec_three_step_limit 10 (lower text)))) ∧
  eval (identify_tool request1) (init (World := unit) [] tt) = Return (Some "search_website") ∧
  extract request1 "search_website" !! "limit" = Some (VInt 10) ∧
  spec_three_step_limit 10 (lower request1) = 5 ∧
  eval (identify_tool request2) (init (World := unit) [] tt) = Return (Some "map_links") ∧
  extract request2 "map_links" !! "limit" = Some (VInt 20) ∧
  spec_three_step_limit 20 (lower request2) = 5.
Proof.
  intros request1 request2. split; [exact crawl_limit_three_steps|].
  repeat split; vm_compute; reflexivity.
Qed.

(** ** The query of [search_website] *)

Lemma extract_search_query (text : string) :
  extract text "search_website" !! "query" = Some (VStr (search_query text)).
Proof.
  change (extract text "search_website") with (extract_search text).
  unfold extract_search. rewrite lookup_insert_ne by discriminate. apply lookup_insert_eq.
Qed.

Lemma validate_search_empty_query (params : gmap string value) :
  params !! "query" = Some (VStr EmptyString) →
  _validate_parameters "search_website" params = false.
Proof.
  intros H. change (_validate_parameters "search_website" params)
    with (all_present ["query"; "limit"] params).
  apply all_present_false. exists "query". split; [left|].
  right. exists (VStr EmptyString). split; [exact H|reflexivity].
Qed.

(** C4, counterexample.  Only the command phrase is removed from the text:
    the words limit 5 stay in the query. *)
Lemma example_query_counterexample : ¬ example_query_without_limit.
Proof.
  unfold example_query_without_limit. intros H.
  apply (f_equal (fun params => params !! "query")) in H.
  vm_compute in H. discriminate.
Qed.

(** ** The time limit of [deep_analysis] *)

Lemma deep_time_limit (text : string) (x : rmatch) :
  re_search time_pattern (lower text) = Some x →
  extract text "deep_analysis" !! "time_limit" =
  Some (VInt (if contains "minute" (lower text) then int (group x) * 60 else int (group x))).
Proof.
  intros H. change (extract text "deep_analysis") with (extract_deep text).
  unfold extract_deep. rewrite H. apply lookup_insert_eq.
Qed.

(** C6, the code at a failing input.  In the request below the phrase that
    matches is timeout 30 seconds, whose unit is a second form, and the
    extracted time limit is 1800, not 30: the word minute is looked for in
    the whole text, not in the matched phrase. *)
Theorem time_limit_minute_elsewhere :
  let request := "research on tea timeout 30 seconds per minute" in
  eval (identify_tool request) (init (World := unit) [] tt) = Return (Some "deep_analysis") ∧
  option_map (fun x => (group0 x, group x)) (re_search time_pattern (lower request))
  = Some ("timeout 30 seconds", "30") ∧
  contains "minute" (lower request) = true ∧
  extract request "deep_analysis" !! "time_limit" = Some (VInt 1800).
Proof. intros request. repeat split; vm_compute; reflexivity. Qed.

(** ** Removing the command phrases *)

Lemma m_lit_i {R : Type} (phrase : string) (prev : option ascii) (s : string)
    (g : option string) (k : @kont R) :
  m (lit_i phrase) prev s g k =
  if same_letters phrase s
  then k (char_before (String.length phrase) prev s)
         (slice_from (String.length phrase) s) g
  else None.
Proof.
  revert prev s. induction phrase as [|a phrase IH]; intros prev s; [reflexivity|].
  destruct phrase as [|b phrase].
  - destruct s as [|c s]; [reflexivity|]. simpl. unfold is_char_i.
    rewrite andb_true_r. reflexivity.
  - destruct s as [|c s]; [reflexivity|].
    change (lit_i (String a (String b phrase)))
      with (Seq (Chr (is_char_i a)) (lit_i (String b phrase))).
    change (same_letters (String a (String b phrase)) (String c s))
      with (Ascii.eqb (lower_char a) (lower_char c) && same_letters (String b phrase) s).
    cbn [m]. unfold is_char_i at 1.
    destruct (Ascii.eqb (lower_char a) (lower_char c)); [|reflexivity].
    rewrite IH. reflexivity.
Qed.

Lemma same_letters_length (phrase s : string) :
  same_letters phrase s = true → (String.length phrase ≤ String.length s)%nat.
Proof.
  revert s. induction phrase as [|a phrase IH]; intros s H; simpl; [lia|].
  destruct s as [|c s]; [discriminate|]. simpl in *.
  apply andb_prop in H as [_ H]. specialize (IH s H). lia.
Qed.

Lemma slice_from_length (n : nat) (s : string) :
  String.length (slice_from n s) = (String.length s - n)%nat.
Proof.
  revert s. induction n as [|n IH]; intros s; simpl; [lia|].
  destruct s as [|c s]; simpl; [reflexivity|]. apply IH.
Qed.

Lemma slice_to_length (n : nat) (s : string) :
  (n ≤ String.length s)%nat → String.length (slice_to n s) = n.
Proof.
  revert s. induction n as [|n IH]; intros s H; simpl; [reflexivity|].
  destruct s as [|c s]; simpl in *; [lia|]. rewrite IH; [reflexivity|lia].
Qed.

Lemma consumed_slice (n : nat) (s : string) :
  (n ≤ String.length s)%nat → consumed s (slice_from n s) = slice_to n s.
Proof.
  intros H. unfold consumed. rewrite slice_from_length. f_equal. lia.
Qed.

(** The pattern of a phrase matches at a position exactly where the phrase
    stands as a whole word. *)
Lemma match_here_phrase (phrase : string) (prev : option ascii) (s : string) :
  phrase ≠ EmptyString →
  match_here (phrase_pattern phrase) prev s =
  if spec_phrase_at phrase prev s
  then Some {| group0 := slice_to (String.length phrase) s;
               group1 := None;
               rest := slice_from (String.length phrase) s |}
  else None.
Proof.
  intros Hne. unfold match_here, phrase_pattern, spec_phrase_at.
  change (cat [WordB; lit_i phrase; WordB]) with (Seq WordB (Seq (lit_i phrase) WordB)).
  cbn [m]. fold (boundary prev (first_char s)).
  destruct (boundary prev (first_char s)); [|reflexivity].
  rewrite m_lit_i. destruct (same_letters phrase s) eqn:E; [|reflexivity].
  cbn [m andb].
  fold (boundary (char_before (String.length phrase) prev s)
                 (first_char (slice_from (String.length phrase) s))).
  destruct (boundary _ _); [|reflexivity].
  rewrite consumed_slice by (apply same_letters_length; exact E). reflexivity.
Qed.

Lemma delete_from_phrase (phrase : string) (prev : option ascii) (s : string) (skip : nat) :
  phrase ≠ EmptyString →
  delete_from (phrase_pattern phrase) prev s skip = spec_remove_from phrase prev s skip.
Proof.
  intros Hne. revert prev skip. induction s as [|c s IH]; intros prev skip; [reflexivity|].
  destruct skip as [|skip]; cbn [delete_from spec_remove_from]; [|apply IH].
  rewrite match_here_phrase by exact Hne.
  destruct (spec_phrase_at phrase prev (String c s)) eqn:E.
  - cbn [group0]. rewrite slice_to_length.
    + destruct phrase as [|a phrase]; [congruence|]. cbn [String.length].
      replace (S (String.length phrase) - 1)%nat with (String.length phrase) by lia.
      apply IH.
    + unfold spec_phrase_at in E. apply andb_prop in E as [E _]. apply andb_prop in E as [_ E].
      apply same_letters_length. exact E.
  - rewrite IH. reflexivity.
Qed.

Lemma re_delete_phrase (phrase s : string) :
  phrase ≠ EmptyString → re_delete (phrase_pattern phrase) s = spec_remove_phrase phrase s.
Proof. intros H. apply delete_from_phrase. exact H. Qed.

Lemma search_query_phrases (text : string) :
  search_query text =
  strip (spec_remove_phrase "search"
           (spec_remove_phrase "look for" (spec_remove_phrase "find" (spec_remove_phrase "search for" text)))).
Proof.
  unfold search_query. cbn [fold_left].
  rewrite !re_delete_phrase by discriminate. reflexivity.
Qed.

(** C4, amended.  For the text of the example [identify_tool] returns
    [search_website] and the extractor yields the query with the command
    phrase removed and the limit phrase still in it, together with the limit
    5.  For every text the query is the text from which the phrases search
    for, find, look for and search have been removed in this order, as whole
    words and whatever their letter case, and which has then been trimmed;
    when nothing remains the validator rejects the argument set. *)
Theorem search_query_command_stripped :
  let request := "search for rust async runtimes limit 5" in
  eval (identify_tool request) (init (World := unit) [] tt) = Return (Some "search_website") ∧
  extract request "search_website"
  = <["query" := VStr "rust async runtimes limit 5"]> (<["limit" := VInt 5]> ∅) ∧
  (∀ text, extract text "search_website" !! "query" =
     Some (VStr (strip (spec_remove_phrase "search"
                          (spec_remove_phrase "look for"
                             (spec_remove_phrase "find" (spec_remove_phrase "search for" text))))))) ∧
  (∀ text, extract text "search_website" !! "query" = Some (VStr EmptyString) →
     _validate_parameters "search_website" (extract text "search_website") = false).
Proof.
  intros request. split; [vm_compute; reflexivity|]. split; [vm_compute; reflexivity|].
  split.
  - intros text. rewrite extract_search_query, search_query_phrases. reflexivity.
  - intros text H. apply validate_search_empty_query. exact H.
Qed.

Lemma search_query_command_stripped_witness :
  _validate_parameters "search_website" (extract "Search for" "search_website") = false.
Proof.
  destruct search_query_command_stripped as (_ & _ & _ & H).
  apply H. vm_compute. reflexivity.
Defined.

(** ** Failures *)

Section Failures.
Context {World Response : Type}.
Variable app : FirecrawlApp.t World Response.
Variable model_dump : Response → M World json.
Variable model_dump_json : Response → M World json.
Variable json_dumps_response : Response → M World json.
Variable agent_run : string → M World string.
Variable json_dumps : gmap string value → string.
Variable repr_names : list string → string.


Lemma select_tool_elem (ts : list (Tool World)) (tool_name : string) (tool : Tool World) :
  select_tool World ts tool_name = Some tool → tool ∈ ts.
Proof.
  induction ts as [|t ts IH]; simpl; [discriminate|].
  destruct (String.eqb (name t) tool_name).
  - intros [= ->]. left.
  - intros H. right. apply IH, H.
Qed.

Lemma process_request_returns (self : FirecrawlAgent World) (text : string) :
  ∃ reply self',
    process_request agent_run json_dumps repr_names text self = (Return reply, self') ∧
    answer agent_run json_dumps repr_names text self reply.
Proof.
  unfold process_request, try_except, bind, extract_parameters, gets, ret.
  rewrite identify_tool_run.
  destruct (named _) as [tool_name|].
  - cbv iota beta.
    destruct (select_tool World (tools self) tool_name) as [tool|] eqn:Et.
    + pose proof (select_tool_elem _ _ _ Et) as Hin.
      destruct (_validate_parameters tool_name (extract text tool_name)).
      * unfold call.
        destruct (_run tool (extract text tool_name) (world self)) as [[result|e] w] eqn:Er.
        -- eexists _, _. split; [reflexivity|].
           eapply rendered_result; [exact Hin|exact Er].
        -- eexists _, _. split; [reflexivity|].
           eapply tool_error; [exact Hin|exact Er].
      * unfold call. destruct (agent_run text (world self)) as [[reply|e] w] eqn:Ea.
        -- eexists _, _. split; [reflexivity|]. eapply fallback_reply. exact Ea.
        -- eexists _, _. split; [reflexivity|]. eapply fallback_error. exact Ea.
    + eexists _, _. split; [reflexivity|]. apply not_found_message.
  - unfold call. destruct (agent_run text (world self)) as [[reply|e] w] eqn:Ea.
    + eexists _, _. split; [reflexivity|]. eapply fallback_reply. exact Ea.
    + eexists _, _. split; [reflexivity|]. eapply fallback_error. exact Ea.
Qed.

End Failures.

(** ** What a pattern matches *)

#[local] Arguments String.append : simpl nomatch.

Lemma m_star_sound {R : Type} (p : ascii → bool) (s : string) :
  ∀ prev g (k : @kont R) res,
    m_star p prev s g k = Some res →
    ∃ prev' s' g', matches (Star p) (prev, s, g) (prev', s', g') ∧ k prev' s' g' = Some res.
Proof.
  induction s as [|c s IH]; intros prev g k res H; simpl in H.
  - eexists _, _, _. split; [apply matches_star_nil|exact H].
  - destruct (p c) eqn:Ep.
    + destruct (m_star p (Some c) s g k) as [x|] eqn:E.
      * injection H as <-. destruct (IH _ _ _ _ E) as (prev' & s' & g' & Hm & Hk).
        eexists _, _, _. split; [eapply matches_star_cons; eassumption|exact Hk].
      * eexists _, _, _. split; [apply matches_star_nil|exact H].
    + eexists _, _, _. split; [apply matches_star_nil|exact H].
Qed.

(** The matcher is sound: a result it returns is the result of its
    continuation at the end of a match. *)
Lemma m_sound {R : Type} (r : regex) :
  ∀ prev s g (k : @kont R) res,
    m r prev s g k = Some res →
    ∃ prev' s' g', matches r (prev, s, g) (prev', s', g') ∧ k prev' s' g' = Some res.
Proof.
  induction r as [|p|r1 IH1 r2 IH2|r1 IH1 r2 IH2|r IH|p|p|r IH|];
    intros prev s g k res H; cbn [m] in H.
  - eexists _, _, _. split; [apply matches_eps|exact H].
  - destruct s as [|c s]; [discriminate|]. destruct (p c) eqn:Ep; [|discriminate].
    eexists _, _, _. split; [apply matches_chr, Ep|exact H].
  - destruct (IH1 _ _ _ _ _ H) as (p1 & s1 & g1 & Hm1 & H1).
    destruct (IH2 _ _ _ _ _ H1) as (p2 & s2 & g2 & Hm2 & H2).
    eexists _, _, _. split; [eapply matches_seq; eassumption|exact H2].
  - destruct (m r1 prev s g k) as [x|] eqn:E.
    + injection H as <-. destruct (IH1 _ _ _ _ _ E) as (p1 & s1 & g1 & Hm & Hk).
      eexists _, _, _. split; [apply matches_alt_l, Hm|exact Hk].
    + destruct (IH2 _ _ _ _ _ H) as (p1 & s1 & g1 & Hm & Hk).
      eexists _, _, _. split; [apply matches_alt_r, Hm|exact Hk].
  - destruct (m r prev s g k) as [x|] eqn:E.
    + injection H as <-. destruct (IH _ _ _ _ _ E) as (p1 & s1 & g1 & Hm & Hk).
      eexists _, _, _. split; [apply matches_opt_some, Hm|exact Hk].
    + eexists _, _, _. split; [apply matches_opt_none|exact H].
  - apply m_star_sound. exact H.
  - destruct s as [|c s]; [discriminate|]. destruct (p c) eqn:Ep; [|discriminate].
    destruct (m_star_sound _ _ _ _ _ _ H) as (p1 & s1 & g1 & Hm & Hk).
    eexists _, _, _. split; [eapply matches_plus; eassumption|exact Hk].
  - destruct (IH _ _ _ _ _ H) as (p1 & s1 & g1 & Hm & Hk).
    exists p1, s1, (Some (consumed s s1)). split; [eapply matches_group, Hm|exact Hk].
  - destruct (xorb (word_at prev) (word_at (first_char s))) eqn:E; [|discriminate].
    eexists _, _, _. split; [apply matches_wordb, E|exact H].
Qed.


Lemma append_assoc (a b c : string) : (a +:+ b) +:+ c = a +:+ (b +:+ c).
Proof. induction a as [|x a IH]; simpl; [reflexivity|]. f_equal. exact IH. Qed.

Lemma append_length (a b : string) :
  String.length (a +:+ b) = (String.length a + String.length b)%nat.
Proof. induction a as [|x a IH]; simpl; [reflexivity|]. f_equal. exact IH. Qed.

Lemma slice_to_append (a b : string) : slice_to (String.length a) (a +:+ b) = a.
Proof. induction a as [|x a IH]; simpl; [reflexivity|]. f_equal. exact IH. Qed.

Lemma slice_from_append (a b : string) : slice_from (String.length a) (a +:+ b) = b.
Proof. induction a as [|x a IH]; simpl; [reflexivity|]. exact IH. Qed.

Lemma consumed_append (a b : string) : consumed (a +:+ b) b = a.
Proof.
  unfold consumed. rewrite append_length.
  replace (String.length a + String.length b - String.length b)%nat
    with (String.length a) by lia.
  apply slice_to_append.
Qed.

Lemma all_chars_append (p : ascii → bool) (a b : string) :
  all_chars p (a +:+ b) = all_chars p a && all_chars p b.
Proof.
  induction a as [|x a IH]; simpl; [reflexivity|]. rewrite IH. apply andb_assoc.
Qed.

(** Inversion of [matches], one lemma per construct. *)
Lemma matches_chr_inv (p : ascii → bool) (a b : position) :
  matches (Chr p) a b →
  ∃ prev c s g, a = (prev, String c s, g) ∧ b = (Some c, s, g) ∧ p c = true.
Proof. inversion 1; subst. eauto 10. Qed.

Lemma matches_seq_inv (r1 r2 : regex) (a c : position) :
  matches (Seq r1 r2) a c → ∃ b, matches r1 a b ∧ matches r2 b c.
Proof. inversion 1; subst. eauto. Qed.

Lemma matches_alt_inv (r1 r2 : regex) (a b : position) :
  matches (Alt r1 r2) a b → matches r1 a b ∨ matches r2 a b.
Proof. inversion 1; subst; eauto. Qed.

Lemma matches_opt_inv (r : regex) (a b : position) :
  matches (Opt r) a b → matches r a b ∨ b = a.
Proof. inversion 1; subst; eauto. Qed.

Lemma matches_plus_inv (p : ascii → bool) (a b : position) :
  matches (Plus p) a b →
  ∃ prev c s g, a = (prev, String c s, g) ∧ p c = true ∧ matches (Star p) (Some c, s, g) b.
Proof. inversion 1; subst. eauto 10. Qed.

Lemma matches_group_inv (r : regex) (a b : position) :
  matches (Group r) a b →
  ∃ g', matches r a (b.1, g') ∧ capture_of b = Some (consumed (text_of a) (text_of b)).
Proof. inversion 1; subst. eauto. Qed.

Lemma matches_wordb_inv (a b : position) :
  matches WordB a b →
  b = a ∧ xorb (word_at a.1.1) (word_at (first_char (text_of a))) = true.
Proof. inversion 1; subst. eauto. Qed.

(** A match consumes a prefix of the text it starts from. *)
Lemma matches_prefix (r : regex) (a b : position) :
  matches r a b → ∃ pre, text_of a = pre +:+ text_of b.
Proof.
  induction 1; unfold text_of in *; simpl in *.
  - exists EmptyString. reflexivity.
  - exists (String c EmptyString). reflexivity.
  - destruct IHmatches1 as [p1 H1]. destruct IHmatches2 as [p2 H2].
    exists (p1 +:+ p2). rewrite H1, H2. symmetry. apply append_assoc.
  - assumption.
  - assumption.
  - assumption.
  - exists EmptyString. reflexivity.
  - exists EmptyString. reflexivity.
  - destruct IHmatches as [p1 H1]. exists (String c p1). rewrite H1. reflexivity.
  - destruct IHmatches as [p1 H1]. exists (String c p1). rewrite H1. reflexivity.
  - assumption.
  - exists EmptyString. reflexivity.
Qed.

(** A starred class consumes characters of the class only and leaves the
    capture alone. *)
Lemma matches_star_run (p : ascii → bool) (a b : position) :
  matches (Star p) a b →
  ∃ run, text_of a = run +:+ text_of b ∧ all_chars p run = true ∧ capture_of b = capture_of a.
Proof.
  remember (Star p) as r eqn:Er. induction 1; try discriminate; injection Er as ->.
  - exists EmptyString. repeat split.
  - destruct (IHmatches eq_refl) as (run & H1 & H2 & H3).
    exists (String c run). unfold text_of, capture_of in *. simpl in *.
    rewrite H1, H, H2, H3. repeat split.
Qed.

Lemma matches_plus_run (p : ascii → bool) (a b : position) :
  matches (Plus p) a b →
  ∃ run, text_of a = run +:+ text_of b ∧ run ≠ EmptyString ∧ all_chars p run = true
         ∧ capture_of b = capture_of a.
Proof.
  intros H. apply matches_plus_inv in H as (prev & c & s & g & -> & Hp & Hs).
  destruct (matches_star_run _ _ _ Hs) as (run & H1 & H2 & H3).
  exists (String c run). unfold text_of, capture_of in *. simpl in *.
  rewrite H1, H2, H3, Hp. repeat split. discriminate.
Qed.

(** A literal word consumes exactly its letters. *)
Lemma matches_lit (w : string) (a b : position) :
  matches (lit w) a b → text_of a = w +:+ text_of b ∧ capture_of b = capture_of a.
Proof.
  revert a b. induction w as [|c w IH]; intros a b H.
  - inversion H; subst. split; reflexivity.
  - destruct w as [|d w].
    + apply matches_chr_inv in H as (prev & c' & s & g & -> & -> & Hc).
      unfold is_char in Hc. apply Ascii.eqb_eq in Hc. subst. split; reflexivity.
    + change (lit (String c (String d w))) with (Seq (Chr (is_char c)) (lit (String d w))) in H.
      apply matches_seq_inv in H as (m & H1 & H2).
      apply matches_chr_inv in H1 as (prev & c' & s & g & -> & -> & Hc).
      unfold is_char in Hc. apply Ascii.eqb_eq in Hc. subst.
      destruct (IH _ _ H2) as [E1 E2]. unfold text_of, capture_of in *. simpl in *.
      rewrite E1. split; [reflexivity|exact E2].
Qed.

Lemma matches_capture (p : ascii → bool) (r : regex) (a b : position) :
  captures_runs p r → matches r a b → run_or p (capture_of a) (capture_of b).
Proof.
  intros Hc H. induction H; simpl in Hc; try (left; reflexivity).
  - destruct Hc as [Hc1 Hc2].
    destruct (IHmatches1 Hc1) as [E1|(d & E1 & N1 & A1)];
      destruct (IHmatches2 Hc2) as [E2|(d2 & E2 & N2 & A2)].
    + left. congruence.
    + right. eauto.
    + right. exists d. rewrite E2. eauto.
    + right. eauto.
  - apply IHmatches, Hc.
  - apply IHmatches, Hc.
  - apply IHmatches, Hc.
  - apply matches_star_run in H0 as (run & H1 & H2 & H3). left. exact H3.
  - apply matches_star_run in H0 as (run & H1 & H2 & H3). left. exact H3.
  - subst r. apply matches_plus_run in H as (run & H1 & H2 & H3 & H4).
    unfold text_of, capture_of in *. simpl in *. subst s.
    right. exists run. rewrite consumed_append. eauto.
Qed.

(** What [re.search] returns was matched at some position of the text. *)
Lemma search_from_here (r : regex) (s : string) :
  ∀ prev x, search_from r prev s = Some x →
    ∃ before prev' s1, s = before +:+ s1 ∧ match_here r prev' s1 = Some x.
Proof.
  induction s as [|c s IH]; intros prev x H; simpl in H.
  - destruct (match_here r prev EmptyString) as [y|] eqn:E; [|discriminate].
    injection H as <-. exists EmptyString, prev, EmptyString. split; [reflexivity|exact E].
  - destruct (match_here r prev (String c s)) as [y|] eqn:E.
    + injection H as <-. exists EmptyString, prev, (String c s). split; [reflexivity|exact E].
    + destruct (IH _ _ H) as (before & prev' & s1 & -> & Hm).
      exists (String c before), prev', s1. split; [reflexivity|exact Hm].
Qed.

(** A match object describes a match: its group 0 is the text consumed. *)
Lemma match_here_matches (r : regex) (prev : option ascii) (s : string) (x : rmatch) :
  match_here r prev s = Some x →
  ∃ prev', matches r (prev, s, None) (prev', rest x, group1 x)
           ∧ s = group0 x +:+ rest x.
Proof.
  unfold match_here. intros H. apply m_sound in H as (prev' & s' & g' & Hm & Hk).
  injection Hk as <-. simpl. exists prev'. split; [exact Hm|].
  destruct (matches_prefix _ _ _ Hm) as [pre Hp]. unfold text_of in Hp. simpl in Hp.
  rewrite Hp at 2. rewrite Hp, consumed_append. reflexivity.
Qed.

(** ** Well-formed URLs *)

Lemma well_formed_http (run : string) :
  nonempty_run url_char run = true → well_formed_url ("http://" +:+ run) = true.
Proof.
  intros H. unfold well_formed_url.
  change (startswith "http://" ("http://" +:+ run)) with true.
  change (slice_from 7 ("http://" +:+ run)) with run.
  rewrite H. reflexivity.
Qed.

Lemma well_formed_https (run : string) :
  nonempty_run url_char run = true → well_formed_url ("https://" +:+ run) = true.
Proof.
  intros H. unfold well_formed_url.
  change (startswith "http://" ("https://" +:+ run)) with false.
  change (startswith "https://" ("https://" +:+ run)) with true.
  change (slice_from 8 ("https://" +:+ run)) with run.
  rewrite H. reflexivity.
Qed.

Lemma match_here_group0 (r : regex) (prev : option ascii) (s : string) (x : rmatch) :
  match_here r prev s = Some x → group0 x = consumed s (rest x).
Proof.
  unfold match_here. intros H. apply m_sound in H as (prev' & s' & g' & Hm & Hk).
  injection Hk as <-. reflexivity.
Qed.

Lemma url_match_well_formed (prev : option ascii) (s : string) (x : rmatch) :
  match_here url_pattern prev s = Some x → well_formed_url (group0 x) = true.
Proof.
  intros H. rewrite (match_here_group0 _ _ _ _ H).
  apply match_here_matches in H as (prev' & Hm & _).
  change url_pattern with
    (Seq (lit "http") (Seq (Opt (lit "s")) (Seq (lit "://") (Plus url_char)))) in Hm.
  apply matches_seq_inv in Hm as (b1 & H1 & Hm).
  apply matches_seq_inv in Hm as (b2 & H2 & Hm).
  apply matches_seq_inv in Hm as (b3 & H3 & H4).
  apply (matches_lit "http") in H1 as [E1 _]. apply (matches_lit "://") in H3 as [E3 _].
  apply matches_plus_run in H4 as (run & E4 & Hn & Ha & _).
  unfold text_of in *. simpl in *.
  assert (E2 : b1.1.2 = b2.1.2 ∨ b1.1.2 = "s" +:+ b2.1.2).
  { apply matches_opt_inv in H2 as [H2| ->]; [|left; reflexivity].
    apply (matches_lit "s") in H2 as [E2 _]. right. exact E2. }
  destruct run as [|c run]; [congruence|].
  destruct E2 as [E2|E2]; rewrite E1, E2, E3, E4.
  - change (well_formed_url
              (consumed (("http://" +:+ String c run) +:+ rest x) (rest x)) = true).
    rewrite consumed_append. apply well_formed_http. exact Ha.
  - change (well_formed_url
              (consumed (("https://" +:+ String c run) +:+ rest x) (rest x)) = true).
    rewrite consumed_append. apply well_formed_https. exact Ha.
Qed.

(** Every element [re.findall] returns is the text of a match, and it
    occurs in the text searched. *)
Lemma findall_from_elem (r : regex) (s : string) :
  ∀ prev skip u, u ∈ findall_from r prev s skip →
    ∃ before prev' after x,
      s = before +:+ u +:+ after ∧ match_here r prev' (u +:+ after) = Some x ∧ group0 x = u.
Proof.
  assert (Hhere : ∀ prev s x, match_here r prev s = Some x →
            ∃ before prev' after y, s = before +:+ group0 x +:+ after
              ∧ match_here r prev' (group0 x +:+ after) = Some y ∧ group0 y = group0 x).
  { intros prev s0 x E. destruct (match_here_matches _ _ _ _ E) as (_ & _ & Hs).
    exists EmptyString, prev, (rest x), x. rewrite <- Hs. repeat split. exact E. }
  induction s as [|c s IH]; intros prev skip u H.
  - destruct skip; simpl in H; [|inversion H].
    destruct (match_here r prev EmptyString) as [x|] eqn:E; [|inversion H].
    apply elem_of_cons in H as [->|H]; [|inversion H]. apply (Hhere _ _ _ E).
  - destruct skip as [|skip]; simpl in H.
    + destruct (match_here r prev (String c s)) as [x|] eqn:E.
      * apply elem_of_cons in H as [->|H]; [apply (Hhere _ _ _ E)|].
        destruct (IH _ _ _ H) as (before & prev' & after & y & -> & Hy).
        exists (String c before), prev', after, y. split; [reflexivity|exact Hy].
      * destruct (IH _ _ _ H) as (before & prev' & after & y & -> & Hy).
        exists (String c before), prev', after, y. split; [reflexivity|exact Hy].
    + destruct (IH _ _ _ H) as (before & prev' & after & y & -> & Hy).
      exists (String c before), prev', after, y. split; [reflexivity|exact Hy].
Qed.

Lemma findall_url_well_formed (text u : string) :
  u ∈ re_findall url_pattern text → well_formed_url u = true ∧ occurs_in u text.
Proof.
  intros H. apply findall_from_elem in H as (before & prev' & after & x & Hs & Hm & Hg).
  split.
  - rewrite <- Hg. apply (url_match_well_formed _ _ _ Hm).
  - exists before, after. exact Hs.
Qed.


(** ** The URL argument *)

Lemma set_url_lookup (urls : list string) :
  set_url urls ∅ !! "url" = match urls with
                            | u :: _ => Some (VStr u)
                            | [] => None
                            end.
Proof. destruct urls; simpl; [apply lookup_empty|apply lookup_insert_eq]. Qed.

Lemma extract_scrape_url (text : string) :
  extract text "scrape_website" !! "url" = set_url (re_findall url_pattern text) ∅ !! "url".
Proof.
  change (extract text "scrape_website") with (extract_scrape text). unfold extract_scrape.
  destruct (any_in _ _); [rewrite lookup_insert_ne by discriminate|];
    (destruct (contains "html" _); [rewrite lookup_insert_ne by discriminate; reflexivity|]);
    (destruct (contains "json" _); [rewrite lookup_insert_ne by discriminate; reflexivity|]);
    (destruct (_ || _); [rewrite lookup_insert_ne by discriminate; reflexivity|reflexivity]).
Qed.

Lemma extract_crawl_url (text : string) :
  extract text "crawl_website" !! "url" = set_url (re_findall url_pattern text) ∅ !! "url".
Proof.
  change (extract text "crawl_website") with (extract_crawl text). unfold extract_crawl.
  rewrite lookup_insert_ne by discriminate. reflexivity.
Qed.

Lemma extract_map_url (text : string) :
  extract text "map_links" !! "url" = set_url (re_findall url_pattern text) ∅ !! "url".
Proof.
  change (extract text "map_links") with (extract_map text). unfold extract_map.
  rewrite !lookup_insert_ne by discriminate. reflexivity.
Qed.

Lemma extract_url (text tool_name : string) :
  tool_name ∈ ["scrape_website"; "crawl_website"; "map_links"] →
  extract text tool_name !! "url" = set_url (re_findall url_pattern text) ∅ !! "url".
Proof.
  intros H. repeat (apply elem_of_cons in H as [->|H]);
    [apply extract_scrape_url|apply extract_crawl_url|apply extract_map_url|inversion H].
Qed.

(** ** All the URLs *)

(** X1.  Every URL the extractor hands over is well formed and occurs in the
    text, in the letter case of the text: the single URL of
    [scrape_website], [crawl_website] and [map_links], and each URL of the
    list of [extract_content]. *)
Theorem extracted_urls_well_formed (text : string) :
  (∀ tool_name v, tool_name ∈ ["scrape_website"; "crawl_website"; "map_links"] →
     extract text tool_name !! "url" = Some v →
     ∃ u, v = VStr u ∧ well_formed_url u = true ∧ occurs_in u text) ∧
  (∃ urls, extract text "extract_content" !! "urls" = Some (VList urls) ∧
           Forall (fun u => well_formed_url u = true ∧ occurs_in u text) urls).
Proof.
  split.
  - intros t v Ht H. rewrite (extract_url _ _ Ht), set_url_lookup in H.
    destruct (re_findall url_pattern text) as [|u urls] eqn:E; [discriminate|].
    injection H as <-. exists u. split; [reflexivity|].
    apply findall_url_well_formed. rewrite E. left.
  - exists (re_findall url_pattern text). split.
    + change (extract text "extract_content") with (extract_extract text).
      unfold extract_extract.
      destruct (first_indicator _ _); rewrite lookup_insert_ne by discriminate;
        apply lookup_insert_eq.
    + apply Forall_forall. intros u Hu. apply findall_url_well_formed, Hu.
Qed.

(** ** Dispatchable argument sets *)


Lemma first_indicator_None (indicators : list string) (text : string) :
  first_indicator indicators text = None →
  ∀ indicator, indicator ∈ indicators → contains indicator text = false.
Proof.
  induction indicators as [|i l IH]; simpl; intros H ind Hi; [inversion Hi|].
  destruct (contains i text) eqn:E; [discriminate|].
  apply elem_of_cons in Hi as [->|Hi]; [exact E|apply IH; assumption].
Qed.




Lemma lower_append (a b : string) : lower (a +:+ b) = lower a +:+ lower b.
Proof. induction a as [|x a IH]; simpl; [reflexivity|]. f_equal. exact IH. Qed.








Lemma findall_empty_text (r : regex) :
  match_here r None EmptyString = None → re_findall r EmptyString = [].
Proof. intros H. unfold re_findall. simpl. rewrite H. reflexivity. Qed.

Lemma startswith_nonempty (p s : string) :
  p ≠ EmptyString → startswith p s = true → s ≠ EmptyString.
Proof. intros Hp H ->. destruct p; [congruence|discriminate]. Qed.



(** ** Limits *)

Lemma int_acc_nonneg (s : string) (acc : Z) :
  0 ≤ acc → all_chars is_digit s = true → 0 ≤ int_acc acc s.
Proof.
  revert acc. induction s as [|c s IH]; intros acc Ha H; simpl in *; [exact Ha|].
  apply andb_prop in H as [Hc H]. apply IH; [|exact H].
  unfold is_digit, in_range in Hc. apply andb_prop in Hc as [H1 H2].
  apply N.leb_le in H1, H2. lia.
Qed.

Lemma captured_number_nonneg (r : regex) (s : string) (x : rmatch) :
  captures_runs is_digit r → re_search r s = Some x → 0 ≤ int (group x).
Proof.
  intros Hc H. apply search_from_here in H as (before & prev' & s1 & _ & H).
  apply match_here_matches in H as (prev'' & Hm & _).
  apply (matches_capture is_digit r _ _ Hc) in Hm.
  unfold capture_of, group in *. simpl in Hm.
  destruct Hm as [->|(d & -> & _ & Hd)]; [reflexivity|].
  apply int_acc_nonneg; [lia|exact Hd].
Qed.

Lemma limit_or_nonneg (default : Z) (low : string) : 0 ≤ default → 0 ≤ limit_or default low.
Proof.
  intros Hd. unfold limit_or. destruct (re_search limit_pattern low) as [x|] eqn:E; [|exact Hd].
  eapply (captured_number_nonneg limit_pattern); [simpl; repeat split|exact E].
Qed.

(** X4.  No number the extractor reads from the text is negative: the limit of
    [crawl_website], [search_website] and [map_links], which is always set,
    and the depth and the time limit of [deep_analysis] when they are
    set. *)
Theorem extracted_numbers_nonneg (text : string) :
  (∀ tool_name, tool_name ∈ ["crawl_website"; "search_website"; "map_links"] →
     ∃ n, extract text tool_name !! "limit" = Some (VInt n) ∧ 0 ≤ n) ∧
  (∀ key v, key ∈ ["max_depth"; "time_limit"] →
     extract text "deep_analysis" !! key = Some v → ∃ n, v = VInt n ∧ 0 ≤ n).
Proof.
  split.
  - intros t Ht. repeat (apply elem_of_cons in Ht as [->|Ht]); [| | |inversion Ht].
    + eexists. split; [apply crawl_limit_three_steps|].
      unfold spec_three_step_limit.
      destruct (re_search limit_pattern (lower text)) as [x|] eqn:E.
      * eapply (captured_number_nonneg limit_pattern); [simpl; repeat split|exact E].
      * destruct (re_search number_pattern (lower text)) as [y|] eqn:E2; [|lia].
        eapply (captured_number_nonneg number_pattern); [simpl; repeat split|exact E2].
    + eexists. split; [apply search_limit_two_steps|]. apply limit_or_nonneg. lia.
    + eexists. split; [apply map_limit_two_steps|]. apply limit_or_nonneg. lia.
  - intros key v Hk. change (extract text "deep_analysis") with (extract_deep text).
    unfold extract_deep.
    set (q := <["query" := VStr _]> ∅).
    assert (Hq : ∀ k, k ∈ ["max_depth"; "time_limit"] → q !! k = None).
    { intros k Hk'. unfold q.
      repeat (apply elem_of_cons in Hk' as [->|Hk']); [| |inversion Hk'];
        rewrite lookup_insert_ne by discriminate; apply lookup_empty. }
    assert (Hd : ∀ x, re_search depth_pattern (lower text) = Some x → 0 ≤ int (group x)).
    { intros x E. eapply (captured_number_nonneg depth_pattern); [simpl; repeat split|exact E]. }
    assert (Ht : ∀ x, re_search time_pattern (lower text) = Some x → 0 ≤ int (group x)).
    { intros x E. eapply (captured_number_nonneg time_pattern); [simpl; repeat split|exact E]. }
    destruct (re_search time_pattern (lower text)) as [tm|] eqn:Et;
      destruct (re_search depth_pattern (lower text)) as [dm|] eqn:Ed;
      repeat (apply elem_of_cons in Hk as [->|Hk]); try (inversion Hk; fail);
      rewrite ?lookup_insert_eq, ?(lookup_insert_ne _ "time_limit" "max_depth") by discriminate;
      rewrite ?lookup_insert_eq;
      try (rewrite Hq by (repeat constructor); discriminate);
      intros [= <-]; eexists; (split; [reflexivity|]);
      try (apply Hd; reflexivity);
      specialize (Ht _ eq_refl); destruct (contains "minute" (lower text)); lia.
Qed.

(** ** Minutes *)

Lemma startswith_append (p a b : string) :
  startswith p a = true → startswith p (a +:+ b) = true.
Proof.
  revert a. induction p as [|x p IH]; intros a H; [reflexivity|].
  destruct a as [|c a]; [discriminate|]. simpl in *.
  apply andb_prop in H as [H1 H2]. rewrite H1. simpl. apply IH, H2.
Qed.

Lemma contains_append_l (p a b : string) :
  p ≠ EmptyString → contains p a = true → contains p (a +:+ b) = true.
Proof.
  intros Hp. induction a as [|c a IH]; intros H.
  - simpl in H. rewrite orb_false_r in H. destruct p; [congruence|discriminate].
  - simpl in H. apply orb_prop in H as [H|H].
    + apply contains_here. apply (startswith_append p (String c a) b), H.
    + apply (contains_later p c (a +:+ b)), IH, H.
Qed.

Lemma contains_append_r (p a b : string) :
  contains p b = true → contains p (a +:+ b) = true.
Proof.
  intros H. induction a as [|c a IH]; [exact H|]. apply (contains_later p c (a +:+ b)), IH.
Qed.

(** What [re.search] matched occurs in the text searched. *)
Lemma search_group0_occurs (r : regex) (s : string) (x : rmatch) :
  re_search r s = Some x → occurs_in (group0 x) s.
Proof.
  intros H. apply search_from_here in H as (before & prev' & s1 & -> & H).
  apply match_here_matches in H as (_ & _ & ->). exists before, (rest x). reflexivity.
Qed.

(** X5.  For [deep_analysis], a time phrase whose matched text contains minute is
    always converted: the time limit is sixty times the number read; and
    the number is taken as it is when the lower-cased text contains no
    minute at all. *)
Theorem minutes_converted (text : string) (x : rmatch) :
  re_search time_pattern (lower text) = Some x →
  (contains "minute" (group0 x) = true →
     extract text "deep_analysis" !! "time_limit" = Some (VInt (int (group x) * 60))) ∧
  (contains "minute" (lower text) = false →
     extract text "deep_analysis" !! "time_limit" = Some (VInt (int (group x)))).
Proof.
  intros H. rewrite (deep_time_limit text x H). split; intros Hc.
  - destruct (search_group0_occurs _ _ _ H) as (before & after & Hs).
    assert (Hm : contains "minute" (lower text) = true).
    { rewrite Hs. apply contains_append_r, contains_append_l; [discriminate|exact Hc]. }
    rewrite Hm. reflexivity.
  - rewrite Hc. reflexivity.
Qed.

Lemma minutes_converted_witness :
  extract "research on tea limit 2 minutes" "deep_analysis" !! "time_limit"
  = Some (VInt 120).
Proof.
  assert (H : re_search time_pattern (lower "research on tea limit 2 minutes")
              = Some {| group0 := "limit 2 minutes"; group1 := Some "2";
                        rest := EmptyString |}) by (vm_compute; reflexivity).
  destruct (minutes_converted _ _ H) as [Hm _]. apply Hm. vm_compute. reflexivity.
Defined.

(** ** Filter terms and queries *)

Lemma lstrip_first (s : string) : space_at (first_char (lstrip s)) = false.
Proof.
  induction s as [|c s IH]; simpl; [reflexivity|].
  destruct (is_space c) eqn:E; [exact IH|]. simpl. exact E.
Qed.

Lemma rstrip_first (s : string) :
  space_at (first_char s) = false → space_at (first_char (rstrip s)) = false.
Proof.
  destruct s as [|c s]; simpl; [reflexivity|]. intros H.
  destruct (rstrip s); [rewrite H|]; simpl; exact H.
Qed.

Lemma rstrip_last (s : string) : space_at (last_char (rstrip s)) = false.
Proof.
  induction s as [|c s IH]; simpl; [reflexivity|].
  destruct (rstrip s) as [|d r] eqn:E.
  - destruct (is_space c) eqn:Ec; simpl; [reflexivity|exact Ec].
  - exact IH.
Qed.

Lemma strip_trimmed (s : string) : trimmed (strip s) = true.
Proof.
  unfold trimmed, strip.
  rewrite (rstrip_first _ (lstrip_first s)), rstrip_last. reflexivity.
Qed.

Lemma all_chars_lstrip (p : ascii → bool) (s : string) :
  all_chars p s = true → all_chars p (lstrip s) = true.
Proof.
  induction s as [|c s IH]; simpl; intros H; [reflexivity|].
  apply andb_prop in H as [H1 H2].
  destruct (is_space c); [apply IH, H2|]. simpl. rewrite H1, H2. reflexivity.
Qed.

Lemma all_chars_rstrip (p : ascii → bool) (s : string) :
  all_chars p s = true → all_chars p (rstrip s) = true.
Proof.
  induction s as [|c s IH]; simpl; intros H; [reflexivity|].
  apply andb_prop in H as [H1 H2]. specialize (IH H2).
  destruct (rstrip s) as [|d r].
  - destruct (is_space c); simpl; [reflexivity|]. rewrite H1. reflexivity.
  - simpl in *. rewrite H1. exact IH.
Qed.

Lemma all_chars_strip (p : ascii → bool) (s : string) :
  all_chars p s = true → all_chars p (strip s) = true.
Proof. intros H. apply all_chars_rstrip, all_chars_lstrip, H. Qed.

Lemma lower_char_idem (c : ascii) : lower_char (lower_char c) = lower_char c.
Proof. destruct c as [[] [] [] [] [] [] [] []]; reflexivity. Qed.

Lemma lower_idem (s : string) : lower (lower s) = lower s.
Proof.
  induction s as [|c s IH]; simpl; [reflexivity|]. rewrite lower_char_idem, IH. reflexivity.
Qed.

Lemma is_lower_all (s : string) : is_lower s = all_chars char_lower s.
Proof.
  unfold is_lower. induction s as [|c s IH]; simpl; [reflexivity|].
  unfold char_lower at 1. rewrite <- IH.
  destruct (Ascii.eqb_spec (lower_char c) c) as [E|E]; simpl.
  - reflexivity.
  - reflexivity.
Qed.

Lemma all_chars_append_l (p : ascii → bool) (a b : string) :
  all_chars p (a +:+ b) = true → all_chars p a = true ∧ all_chars p b = true.
Proof. rewrite all_chars_append. apply andb_prop. Qed.

Lemma is_lower_lower (s : string) : is_lower (lower s) = true.
Proof. unfold is_lower. rewrite lower_idem. apply String.eqb_refl. Qed.

(** What a match captures is made of characters of the text. *)
Lemma matches_capture_all (q : ascii → bool) (r : regex) (a b : position) :
  matches r a b →
  all_chars q (text_of a) = true → capture_all q (capture_of a) = true →
  all_chars q (text_of b) = true ∧ capture_all q (capture_of b) = true.
Proof.
  induction 1; unfold text_of, capture_of in *; simpl in *; intros Ht Hg;
    try (split; assumption).
  - apply andb_prop in Ht as [_ Ht]. split; assumption.
  - destruct (IHmatches1 Ht Hg) as [Ht1 Hg1]. apply IHmatches2; assumption.
  - apply IHmatches; assumption.
  - apply IHmatches; assumption.
  - apply IHmatches; assumption.
  - apply andb_prop in Ht as [_ Ht]. apply IHmatches; assumption.
  - apply andb_prop in Ht as [_ Ht]. apply IHmatches; assumption.
  - destruct (IHmatches Ht Hg) as [Ht1 _]. split; [exact Ht1|].
    destruct (matches_prefix _ _ _ H) as [pre Hp]. unfold text_of in Hp. simpl in Hp.
    subst s. rewrite consumed_append. apply all_chars_append_l in Ht as [Ht _]. exact Ht.
Qed.

Lemma search_capture_all (q : ascii → bool) (r : regex) (s : string) (x : rmatch) :
  all_chars q s = true → re_search r s = Some x → all_chars q (group x) = true.
Proof.
  intros Hq H. apply search_from_here in H as (before & prev' & s1 & -> & H).
  apply all_chars_append_l in Hq as [_ Hq].
  apply match_here_matches in H as (prev'' & Hm & _).
  destruct (matches_capture_all q _ _ _ Hm Hq eq_refl) as [_ Hg].
  unfold capture_of, group in *. simpl in Hg. destruct (group1 x); [exact Hg|reflexivity].
Qed.

Lemma search_capture_run (p : ascii → bool) (r : regex) (s : string) (x : rmatch) :
  captures_runs p r → re_search r s = Some x → all_chars p (group x) = true.
Proof.
  intros Hc H. apply search_from_here in H as (before & prev' & s1 & _ & H).
  apply match_here_matches in H as (prev'' & Hm & _).
  apply (matches_capture p r _ _ Hc) in Hm.
  unfold capture_of, group in *. simpl in Hm.
  destruct Hm as [->|(d & -> & _ & Hd)]; [reflexivity|exact Hd].
Qed.

(** X6.  The filter term of [map_links] is trimmed and in lower case, whatever
    the letter case of the text, and holds no comma, period or newline. *)
Theorem map_links_filter_term (text : string) :
  ∃ term, extract text "map_links" !! "search" = Some (VStr term) ∧
          trimmed term = true ∧ is_lower term = true ∧ all_chars term_char term = true.
Proof.
  change (extract text "map_links") with (extract_map text). unfold extract_map.
  eexists. split; [rewrite lookup_insert_ne by discriminate; apply lookup_insert_eq|].
  destruct (contains "about" (lower text)); [|repeat split].
  destruct (re_search about_pattern (lower text)) as [x|] eqn:E; [|repeat split].
  cbn [str_join]. split; [apply strip_trimmed|]. split.
  - rewrite is_lower_all. apply all_chars_strip.
    apply (search_capture_all char_lower about_pattern (lower text)); [|exact E].
    rewrite <- is_lower_all. apply is_lower_lower.
  - apply all_chars_strip. apply (search_capture_run term_char about_pattern _ _ ) in E;
      [exact E|]. simpl. repeat split.
Qed.

(** X7.  The query of [search_website] is always trimmed; the query of
    [deep_analysis] is trimmed when one of its indicators occurs in the
    lower-cased text, and is the text itself, untrimmed, when none does. *)
Theorem queries_trimmed (text : string) :
  (∃ query, extract text "search_website" !! "query" = Some (VStr query)
            ∧ trimmed query = true) ∧
  (∃ query, extract text "deep_analysis" !! "query" = Some (VStr query) ∧
            match first_indicator query_indicators (lower text) with
            | Some _ => trimmed query = true
            | None => query = text
            end).
Proof.
  split.
  - exists (search_query text). split; [apply extract_search_query|]. apply strip_trimmed.
  - change (extract text "deep_analysis") with (extract_deep text). unfold extract_deep.
    fold query_indicators. eexists. split.
    + destruct (re_search time_pattern (lower text));
        destruct (re_search depth_pattern (lower text));
        rewrite ?lookup_insert_ne by discriminate; apply lookup_insert_eq.
    + destruct (first_indicator query_indicators (lower text)); [apply strip_trimmed|reflexivity].
Qed.

(** ** The names of the tools *)

Lemma first_tool_name (items : list (string * list regex)) (text tool_name : string) :
  first_tool items text = Some tool_name → tool_name ∈ map fst items.
Proof.
  induction items as [|[n ps] items IH]; simpl; [discriminate|].
  destruct (any_pattern ps text).
  - intros [= <-]. left.
  - intros H. right. apply IH, H.
Qed.

Lemma fallback_tool_name (low tool_name : string) :
  fallback_tool low = Some tool_name → tool_name ∈ tool_names.
Proof.
  unfold fallback_tool, tool_names.
  repeat match goal with |- context [any_in ?l low] => destruct (any_in l low) end;
    intros [= <-]; repeat constructor.
Qed.

(** X8.  [identify_tool] returns [None] or the name of one of the six
    operations, never another string: the name it returns has its entry in
    the table of required parameters and passes the test [if tool_name:]. *)
Theorem identify_tool_known (World : Type) (ts : list (Tool World)) (w : World)
    (text : string) :
  ∃ selected, identify_tool text (init ts w) = (Return selected, init ts w) ∧
    match selected with
    | Some tool_name =>
        tool_name ∈ tool_names ∧
        is_Some (lookup_required required_params tool_name) ∧
        named (Some tool_name) = Some tool_name
    | None => True
    end.
Proof.
  eexists. split; [apply identify_tool_run|]. simpl tool_patterns.
  assert (Hk : ∀ n, n ∈ tool_names →
            is_Some (lookup_required required_params n) ∧ named (Some n) = Some n).
  { intros n Hn. unfold tool_names in Hn.
    repeat (apply elem_of_cons in Hn as [->|Hn]); [..|inversion Hn];
      (split; [eexists|]; reflexivity). }
  destruct (first_tool the_tool_patterns (lower text)) as [n|] eqn:E.
  - apply first_tool_name in E. split; [exact E|]. apply Hk, E.
  - destruct (fallback_tool (lower text)) as [n|] eqn:F; [|exact I].
    apply fallback_tool_name in F. split; [exact F|]. apply Hk, F.
Qed.

(** ** Looking a tool up *)

Lemma select_tool_Some {World : Type} (ts : list (Tool World)) (tool_name : string)
    (tool : Tool World) :
  select_tool World ts tool_name = Some tool →
  name tool = tool_name ∧
  ∃ before after, ts = before ++ tool :: after ∧ tool_name ∉ map name before.
Proof.
  induction ts as [|t ts IH]; simpl; [discriminate|].
  destruct (String.eqb_spec (name t) tool_name) as [E|E].
  - intros [= <-]. split; [exact E|]. exists [], ts. split; [reflexivity|]. intros H. inversion H.
  - intros H. destruct (IH H) as (Hn & before & after & -> & Hb). split; [exact Hn|].
    exists (t :: before), after. split; [reflexivity|].
    simpl. intros Hin. apply elem_of_cons in Hin as [Hin|Hin]; [congruence|contradiction].
Qed.

Lemma select_tool_None {World : Type} (ts : list (Tool World)) (tool_name : string) :
  select_tool World ts tool_name = None ↔ tool_name ∉ map name ts.
Proof.
  induction ts as [|t ts IH]; simpl.
  - split; [|reflexivity]. intros _ H. inversion H.
  - destruct (String.eqb_spec (name t) tool_name) as [E|E].
    + split; [discriminate|]. intros H. exfalso. apply H. rewrite E. left.
    + rewrite IH. split.
      * intros H Hin. apply elem_of_cons in Hin as [Hin|Hin]; [congruence|contradiction].
      * intros H Hin. apply H. right. exact Hin.
Qed.

(** X9.  The lookup of [process_request] finds the first registered tool that
    bears the name, and finds none exactly when [get_available_tools],
    which changes nothing, does not list the name. *)
Theorem lookup_agrees_with_listing (World : Type) (self : FirecrawlAgent World)
    (tool_name : string) :
  ∃ names, get_available_tools self = (Return names, self) ∧
    match select_tool World (tools self) tool_name with
    | Some tool =>
        name tool = tool_name ∧
        ∃ before after, tools self = before ++ tool :: after ∧ tool_name ∉ map name before
    | None => tool_name ∉ names
    end.
Proof.
  exists (map name (tools self)). split; [reflexivity|].
  destruct (select_tool World (tools self) tool_name) as [tool|] eqn:E.
  - apply select_tool_Some, E.
  - apply select_tool_None, E.
Qed.

(** ** The loop of [main] *)

Section MainProperties.
Context {World : Type}.
Variable agent_run : string → M World string.
Variable json_dumps : gmap string value → string.
Variable repr_names : list string → string.

Lemma run_requests_returns (requests : list string) (self : FirecrawlAgent World) :
  ∃ responses self',
    run_requests agent_run json_dumps repr_names requests self = (Return responses, self').
Proof.
  revert self. induction requests as [|r rs IH]; intros self; simpl.
  - eexists _, _. reflexivity.
  - unfold bind.
    destruct (process_request_returns agent_run json_dumps repr_names self r)
      as (reply & self1 & -> & _).
    destruct (IH self1) as (replies & self2 & ->). eexists _, _. reflexivity.
Qed.

Lemma main_loop_blank (line : string) (lines : list string) (self : FirecrawlAgent World)
    (out : list string) :
  is_quit (strip line) = false → strip line = EmptyString →
  main_loop agent_run json_dumps repr_names (line :: lines) (self, out)
  = main_loop agent_run json_dumps repr_names lines (self, out ++ ["You: "]).
Proof.
  intros Hq He. cbn [main_loop]. rewrite Hq, He. reflexivity.
Qed.

Lemma main_loop_request (line : string) (lines : list string) (self self1 : FirecrawlAgent World)
    (out : list string) (reply : string) :
  is_quit (strip line) = false → strip line ≠ EmptyString →
  process_request agent_run json_dumps repr_names (strip line) self = (Return reply, self1) →
  main_loop agent_run json_dumps repr_names (line :: lines) (self, out)
  = main_loop agent_run json_dumps repr_names lines
      (self1, out ++ ["You: "; nl +:+ "Agent: Processing your request...";
                      "Agent: " +:+ reply +:+ nl]).
Proof.
  intros Hq He Hp. cbn [main_loop]. rewrite Hq.
  destruct (String.eqb_spec (strip line) EmptyString) as [E|_]; [contradiction|].
  unfold bind, print, on_agent. cbn [fst snd]. rewrite Hp. cbn [fst snd].
  rewrite <- !app_assoc. reflexivity.
Qed.

(** X10.  The loop of [main] hands to [process_request] exactly the requests among
    the lines typed, in their order and each trimmed; it prints one line
    [Agent: response] for each, and it ends normally when a line asks to
    quit and by [EOFError] when the input runs out before. *)
Theorem main_loop_requests (lines : list string) (self : FirecrawlAgent World)
    (out : list string) :
  ∃ responses self' printed,
    run_requests agent_run json_dumps repr_names (requests_of lines) self
      = (Return responses, self') ∧
    main_loop agent_run json_dumps repr_names lines (self, out)
      = (if asks_to_quit lines then Return tt else Raise "EOF when reading a line",
         (self', out ++ printed)) ∧
    filter (fun line => is_response line = true) printed
      = (fun response => "Agent: " +:+ response +:+ nl) <$> responses.
Proof.
  revert self out. induction lines as [|line lines IH]; intros self out.
  - exists [], self, ["You: "]. repeat split.
  - cbn [before_quit asks_to_quit existsb]. unfold requests_of. cbn [before_quit].
    destruct (is_quit (strip line)) eqn:Eq.
    + exists [], self, ["You: "; "Goodbye!"]. split; [reflexivity|]. split; [|reflexivity].
      cbn [main_loop]. rewrite Eq. unfold bind, print. simpl. rewrite <- app_assoc. reflexivity.
    + cbn [fmap list_fmap]. rewrite filter_cons. simpl orb.
      destruct (String.eqb_spec (strip line) EmptyString) as [Ee|Ee].
      * destruct (decide (strip line ≠ EmptyString)) as [N|_]; [contradiction|].
        destruct (IH self (out ++ ["You: "])) as (rs & self' & printed & H1 & H2 & H3).
        exists rs, self', ("You: " :: printed). split; [exact H1|]. split.
        -- rewrite (main_loop_blank _ _ _ _ Eq Ee), H2, <- app_assoc. reflexivity.
        -- rewrite filter_cons. simpl. exact H3.
      * destruct (decide (strip line ≠ EmptyString)) as [_|N]; [|contradiction].
        cbn [run_requests]. unfold bind at 1.
        destruct (process_request_returns agent_run json_dumps repr_names self (strip line))
          as (reply & self1 & Hp & _).
        rewrite Hp.
        destruct (IH self1 (out ++ ["You: "; nl +:+ "Agent: Processing your request...";
                                    "Agent: " +:+ reply +:+ nl]))
          as (rs & self' & printed & H1 & H2 & H3).
        fold (requests_of lines). unfold bind at 1. rewrite H1.
        exists (reply :: rs), self',
          ("You: " :: (nl +:+ "Agent: Processing your request...")
             :: ("Agent: " +:+ reply +:+ nl) :: printed).
        split; [reflexivity|]. split.
        -- rewrite (main_loop_request _ _ _ _ _ _ Eq Ee Hp), H2, <- app_assoc. reflexivity.
        -- rewrite !filter_cons. cbn [fmap list_fmap]. rewrite <- H3. reflexivity.
Qed.
End MainProperties.

(** ** What [process_request] touches *)

Section Frame.
Context {World : Type}.
Variable agent_run : string → M World string.
Variable json_dumps : gmap string value → string.
Variable repr_names : list string → string.



End Frame.

(** ** [firestream.py]: cleaning the output of a tool *)

Lemma collect_entries (l : list json) :
  match collect entry_of l with
  | Return entries =>
      forallb is_dict l = true ∧ length entries = length l ∧
      Forall (fun e => keys_of e = ["title"; "description"; "url"]) entries
  | Raise _ => forallb is_dict l = false
  end.
Proof.
  induction l as [|x l IH]; simpl.
  - repeat split. constructor.
  - destruct x; simpl; try reflexivity.
    destruct (collect entry_of l) as [entries|e]; simpl.
    + destruct IH as (H1 & H2 & H3). repeat split; [exact H1|simpl; congruence|].
      constructor; [reflexivity|exact H3].
    + exact IH.
Qed.

(** X12.  For a dictionary whose items form a list, [clean_web_output] returns
    exactly when every item is a dictionary, and then with one entry for
    each item, every entry having the keys title, description and url and no
    other; it raises when some item is not a dictionary. *)
Theorem clean_web_output_entries (d : list (string * json)) (l : list json) :
  items_of d = JList l →
  match clean_web_output (JDict d) with
  | Return out =>
      forallb is_dict l = true ∧
      ∃ entries, out = JList entries ∧ length entries = length l ∧
                 Forall (fun e => keys_of e = ["title"; "description"; "url"]) entries
  | Raise _ => forallb is_dict l = false
  end.
Proof.
  intros H. cbn [clean_web_output]. fold (items_of d). rewrite H. cbn [iterate].
  pose proof (collect_entries l) as Hc.
  destruct (collect entry_of l) as [entries|e]; [|exact Hc].
  destruct Hc as (H1 & H2 & H3). split; [exact H1|]. exists entries. repeat split; assumption.
Qed.

Lemma clean_web_output_entries_witness :
  ∃ entries, clean_web_output
               (JDict [("data", JList [JDict [("title", JStr " A "); ("url", JStr "u")];
                                       JDict []])])
             = Return (JList entries) ∧ length entries = 2%nat.
Proof.
  pose proof (clean_web_output_entries
                [("data", JList [JDict [("title", JStr " A "); ("url", JStr "u")]; JDict []])]
                [JDict [("title", JStr " A "); ("url", JStr "u")]; JDict []] eq_refl) as H.
  destruct (clean_web_output _) as [out|e]; [|discriminate H].
  destruct H as (_ & entries & -> & Hl & _). exists entries. split; [reflexivity|exact Hl].
Defined.

(** X13.  A dictionary with none of the keys data, results, title, description
    and url becomes the single placeholder entry, and what it held is
    lost; the error payload of a tool wrapper is such a dictionary, so the
    message of a failure does not survive the cleaning. *)
Theorem clean_web_output_drops :
  (∀ d, (∀ key, key ∈ ["data"; "results"; "title"; "description"; "url"] →
           dict_lookup key d = None) →
        clean_web_output (JDict d) = Return (JList [placeholder])) ∧
  (∀ msg, clean_web_output (error_payload msg) = Return (JList [placeholder])).
Proof.
  assert (H : ∀ d, (∀ key, key ∈ ["data"; "results"; "title"; "description"; "url"] →
                      dict_lookup key d = None) →
                   clean_web_output (JDict d) = Return (JList [placeholder])).
  { intros d H. cbn [clean_web_output].
    rewrite (H "data") by (repeat constructor). rewrite (H "results") by (repeat constructor).
    cbn [iterate collect entry_of]. unfold dict_get.
    rewrite (H "title"), (H "description"), (H "url") by (repeat constructor).
    reflexivity. }
  split; [exact H|]. intros msg. apply H. intros key Hk.
  repeat (apply elem_of_cons in Hk as [->|Hk]); [..|inversion Hk]; reflexivity.
Qed.

(** ** The first pattern of the blacklist *)

Lemma matches_lit_i (w : string) (a b : position) :
  matches (lit_i w) a b →
  ∃ w', text_of a = w' +:+ text_of b ∧ lower w' = lower w.
Proof.
  revert a b. induction w as [|c w IH]; intros a b H.
  - inversion H; subst. exists EmptyString. split; reflexivity.
  - destruct w as [|d w].
    + apply matches_chr_inv in H as (prev & c' & s & g & -> & -> & Hc).
      unfold is_char_i in Hc. apply Ascii.eqb_eq in Hc.
      exists (String c' EmptyString). split; [reflexivity|]. simpl. rewrite Hc. reflexivity.
    + change (lit_i (String c (String d w)))
        with (Seq (Chr (is_char_i c)) (lit_i (String d w))) in H.
      apply matches_seq_inv in H as (m & H1 & H2).
      apply matches_chr_inv in H1 as (prev & c' & s & g & -> & -> & Hc).
      unfold is_char_i in Hc. apply Ascii.eqb_eq in Hc.
      destruct (IH _ _ H2) as (w' & E1 & E2). unfold text_of in *. simpl in *.
      exists (String c' w'). rewrite E1. split; [reflexivity|].
      simpl. rewrite Hc. f_equal. exact E2.
Qed.

(** A run of the letter g, in any letter case, ends with a g once
    lower-cased. *)
Lemma g_run_ends (run : string) :
  run ≠ EmptyString → all_chars (is_char_i "g") run = true →
  ∃ init, lower run = init +:+ "g".
Proof.
  induction run as [|c run IH]; intros Hn Ha; [congruence|].
  simpl in Ha. apply andb_prop in Ha as [Hc Ha].
  unfold is_char_i in Hc. apply Ascii.eqb_eq in Hc. simpl in Hc.
  destruct run as [|d run].
  - exists EmptyString. simpl. rewrite <- Hc. reflexivity.
  - destruct (IH ltac:(discriminate) Ha) as (init & Hi).
    exists (String (lower_char c) init). change (lower (String c (String d run)))
      with (String (lower_char c) (lower (String d run))). rewrite Hi. reflexivity.
Qed.

Lemma svg_match_gxml (prev : option ascii) (s : string) (x : rmatch) :
  match_here svg_pattern prev s = Some x → contains "gxml" (lower s) = true.
Proof.
  intros H. apply match_here_matches in H as (prev' & Hm & _).
  change svg_pattern with (Seq (lit_i "sv") (Seq (Plus (is_char_i "g")) (lit_i "xml"))) in Hm.
  apply matches_seq_inv in Hm as (b1 & H1 & Hm).
  apply matches_seq_inv in Hm as (b2 & H2 & H3).
  apply (matches_lit_i "sv") in H1 as (w1 & E1 & _).
  apply matches_plus_run in H2 as (run & E2 & Hn & Ha & _).
  apply (matches_lit_i "xml") in H3 as (w3 & E3 & L3).
  unfold text_of in *. simpl in *.
  destruct (g_run_ends run Hn Ha) as (init & Hi).
  rewrite E1, E2, E3, !lower_append, Hi, L3.
  apply contains_append_r. rewrite append_assoc. apply contains_append_r.
  apply contains_here. reflexivity.
Qed.

Lemma svg_delete_id (s : string) (prev : option ascii) :
  contains "gxml" (lower s) = false → delete_from svg_pattern prev s 0 = s.
Proof.
  revert prev. induction s as [|c s IH]; intros prev H; [reflexivity|].
  cbn [delete_from].
  destruct (match_here svg_pattern prev (String c s)) as [x|] eqn:E.
  - apply svg_match_gxml in E. congruence.
  - f_equal. apply IH. simpl in H. apply orb_false_elim in H as [_ H]. exact H.
Qed.

(** X14.  The blacklist entry svg+xml is read as a regular expression, in which
    the plus sign repeats the letter g: it removes nothing from a text
    that does not contain gxml in some letter case, and so leaves the words
    svg+xml where they are. *)
Theorem svg_entry_misses_literal (s : string) :
  contains "gxml" (lower s) = false →
  nth_error blacklist 0 = Some svg_pattern ∧ re_delete svg_pattern s = s.
Proof. intros H. split; [reflexivity|]. apply svg_delete_id, H. Qed.

Lemma svg_entry_misses_literal_witness :
  re_delete svg_pattern "data:image/svg+xml;base64" = "data:image/svg+xml;base64".
Proof. apply svg_entry_misses_literal. vm_compute. reflexivity. Defined.

(** ** [firestream.py]: from the answer of the model to a tool *)

Section StreamlitProperties.
Context {World Response : Type}.
Variable app : FirecrawlApp.t World Response.
Variable model_dump : Response → M World json.
Variable model_dump_json : Response → M World json.
Variable json_dumps_response : Response → M World json.
Variable parse_tool_call : string → outcome ToolCall.t.
Variable make_scrap : json → outcome ScrapWebsite.t.
Variable make_crawl : json → outcome CrawlWebsite.t.
Variable make_search : json → outcome SearchWebsite.t.
Variable make_map : json → outcome MapUrls.t.
Variable make_extract : json → outcome ExtractContent.t.
Variable make_deep : json → outcome DeepResearch.t.

Lemma table_get_schemas (n : string) :
  n ∉ "scrap_website" :: shared_names →
  table_get n (tool_schemas make_scrap make_crawl make_search make_map make_extract make_deep)
  = Raise ("'" +:+ n +:+ "'").
Proof.
  intros H. unfold tool_schemas. cbn [table_get].
  repeat match goal with
         | |- context [String.eqb ?k n] =>
             destruct (String.eqb_spec k n) as [<-|_];
               [exfalso; apply H; unfold shared_names; repeat constructor|]
         end.
  reflexivity.
Qed.

(** X15.  [process_user_prompt] reaches a tool only under the five names that
    both tables know.  Under any other name it raises and leaves the world
    untouched: in particular under scrape_website, which [tool_schemas]
    spells scrap_website, so that no request can scrape a page. *)
Theorem process_user_prompt_unreachable (json_text : string) (call : ToolCall.t) (w : World) :
  parse_tool_call json_text = Return call →
  ToolCall.tool_name call ∉ shared_names →
  ∃ e, process_user_prompt app model_dump model_dump_json json_dumps_response
         parse_tool_call make_scrap make_crawl make_search make_map make_extract make_deep
         json_text w = (Raise e, w).
Proof.
  intros Hp Hn. unfold process_user_prompt, bind, pure. rewrite Hp.
  destruct (String.eqb_spec (ToolCall.tool_name call) "scrap_website") as [E|E].
  - rewrite E. cbn [table_get tool_schemas String.eqb Ascii.eqb Bool.eqb]. simpl.
    destruct (make_scrap (ToolCall.params call)) as [p|e]; simpl; eauto.
  - rewrite table_get_schemas; [eauto|].
    intros H. apply elem_of_cons in H as [H|H]; contradiction.
Qed.

End StreamlitProperties.

Lemma process_user_prompt_unreachable_witness :
  ∃ e, process_user_prompt offline_app offline_dump offline_dump offline_dump
         (fun _ => Return scrape_call) invalid invalid invalid invalid invalid invalid
         "{}" tt = (Raise e, tt).
Proof.
  apply (process_user_prompt_unreachable offline_app offline_dump offline_dump offline_dump
           (fun _ => Return scrape_call) invalid invalid invalid invalid invalid invalid
           "{}" scrape_call tt).
  - reflexivity.
  - intros H. unfold shared_names in H.
    repeat (apply elem_of_cons in H as [H|H]; [discriminate|]).
    inversion H.
Defined.

(** ** [firestream.py]: a turn of the chat *)

Section ChatProperties.
Context {World Response : Type}.
Variable app : FirecrawlApp.t World Response.
Variable model_dump : Response → M World json.
Variable model_dump_json : Response → M World json.
Variable json_dumps_response : Response → M World json.
Variable parse_tool_call : string → outcome ToolCall.t.
Variable make_scrap : json → outcome ScrapWebsite.t.
Variable make_crawl : json → outcome CrawlWebsite.t.
Variable make_search : json → outcome SearchWebsite.t.
Variable make_map : json → outcome MapUrls.t.
Variable make_extract : json → outcome ExtractContent.t.
Variable make_deep : json → outcome DeepResearch.t.
Variable json_dumps_indent : json → string.
Variable str_of : json → string.
Variable format_prompt : string → string.
Variable llm_invoke : string → M World string.

Lemma gemini_llm_response_returns (raw_output : json) (w : World) :
  ∃ reply w',
    gemini_llm_response json_dumps_indent str_of format_prompt llm_invoke raw_output w
    = (Return reply, w').
Proof.
  unfold gemini_llm_response, try_except.
  destruct (llm_invoke _ w) as [[reply|e] w']; eexists _, _; reflexivity.
Qed.

(** The cleaning of an error payload. *)
Lemma clean_error_payload (msg : string) :
  clean_web_output (error_payload msg) = Return (JList [placeholder]).
Proof. reflexivity. Qed.

(** A tool whose remote call raises returns the error payload. *)
Lemma tool_failure_payload (n : string) (parser : json → outcome instance)
    (d : json) (x : instance) (w w' : World) (msg : string) :
  n ≠ "scrap_website" →
  table_get n (tool_schemas make_scrap make_crawl make_search make_map make_extract make_deep)
    = Return parser →
  parser d = Return x →
  remote_call app x w = (Raise msg, w') →
  ∃ tool, table_get n (tool_mapping app model_dump model_dump_json json_dumps_response)
          = Return tool ∧ tool x w = (Return (error_payload msg), w').
Proof.
  intros Hn Hp Hx Hr. unfold tool_schemas in Hp. cbn [table_get] in Hp.
  repeat match type of Hp with
         | context [String.eqb ?k n] => destruct (String.eqb_spec k n) as [<-|_]
         end; try discriminate; try congruence.
  all: injection Hp as <-; unfold outcome_map in Hx.
  - destruct (make_crawl d) as [p|]; [|discriminate]. injection Hx as <-.
    eexists. split; [reflexivity|]. cbn in Hr. unfold crawl_website, try_except, bind.
    cbn. rewrite Hr. reflexivity.
  - destruct (make_search d) as [p|]; [|discriminate]. injection Hx as <-.
    eexists. split; [reflexivity|]. cbn in Hr. unfold search_website, try_except, bind.
    cbn. rewrite Hr. reflexivity.
  - destruct (make_map d) as [p|]; [|discriminate]. injection Hx as <-.
    eexists. split; [reflexivity|]. cbn in Hr. unfold map_links, try_except, bind.
    cbn. rewrite Hr. reflexivity.
  - destruct (make_extract d) as [p|]; [|discriminate]. injection Hx as <-.
    eexists. split; [reflexivity|]. cbn in Hr. unfold extract_content, try_except, bind.
    cbn. rewrite Hr. reflexivity.
  - destruct (make_deep d) as [p|]; [|discriminate]. injection Hx as <-.
    eexists. split; [reflexivity|]. cbn in Hr. unfold deep_analysis, try_except, bind.
    cbn. rewrite Hr. reflexivity.
Qed.

(** X16.  When the remote call of the tool selected raises, the turn still
    answers, and its answer is what the formatter makes of the placeholder
    entry alone: the message of the failure never reaches the formatter,
    whatever the tool and whatever the message. *)
Theorem tool_failure_hidden (output_text : string) (call : ToolCall.t)
    (parser : json → outcome instance) (x : instance) (w w' : World) (msg : string) :
  parse_tool_call output_text = Return call →
  ToolCall.tool_name call ≠ "scrap_website" →
  table_get (ToolCall.tool_name call)
    (tool_schemas make_scrap make_crawl make_search make_map make_extract make_deep)
    = Return parser →
  parser (ToolCall.params call) = Return x →
  remote_call app x w = (Raise msg, w') →
  chat_turn app model_dump model_dump_json json_dumps_response parse_tool_call
    make_scrap make_crawl make_search make_map make_extract make_deep
    json_dumps_indent str_of format_prompt llm_invoke output_text w
  = gemini_llm_response json_dumps_indent str_of format_prompt llm_invoke
      (JList [placeholder]) w'.
Proof.
  intros Hc Hn Hp Hx Hr.
  destruct (tool_failure_payload _ _ _ _ _ _ _ Hn Hp Hx Hr) as (tool & Ht & Hrun).
  unfold chat_turn, process_user_prompt, bind, pure.
  rewrite Hc, Hp, Hx, Ht, Hrun. unfold ret at 1.
  rewrite clean_error_payload.
  destruct (gemini_llm_response_returns (JList [placeholder]) w') as (reply & w2 & ->).
  reflexivity.
Qed.

(** X17.  A turn raises exactly when [process_user_prompt] raises or the cleaning
    of its result does, with the same exception, and then before the
    formatter is reached: the world is as [process_user_prompt] left it. *)
Theorem chat_turn_raises (output_text : string) (w w' : World) (e : string) :
  chat_turn app model_dump model_dump_json json_dumps_response parse_tool_call
    make_scrap make_crawl make_search make_map make_extract make_deep
    json_dumps_indent str_of format_prompt llm_invoke output_text w = (Raise e, w')
  ↔ process_user_prompt app model_dump model_dump_json json_dumps_response parse_tool_call
      make_scrap make_crawl make_search make_map make_extract make_deep output_text w
    = (Raise e, w')
    ∨ ∃ data,
        process_user_prompt app model_dump model_dump_json json_dumps_response
          parse_tool_call make_scrap make_crawl make_search make_map make_extract
          make_deep output_text w = (Return data, w')
        ∧ clean_web_output data = Raise e.
Proof.
  unfold chat_turn. unfold bind at 1.
  destruct (process_user_prompt _ _ _ _ _ _ _ _ _ _ _ output_text w) as [[data|e0] w0].
  - unfold bind at 1, pure at 1.
    destruct (clean_web_output data) as [clean|e1] eqn:Ec.
    + unfold bind.
      destruct (gemini_llm_response_returns clean w0) as (reply & w2 & ->).
      unfold ret. split; [discriminate|].
      intros [H|(d & H & H')]; [discriminate|]. injection H as <- <-. congruence.
    + split.
      * intros H. injection H as <- <-. right. exists data. split; [reflexivity|exact Ec].
      * intros [H|(d & H & H')]; [discriminate|]. injection H as <- <-.
        rewrite Ec in H'. injection H' as <-. reflexivity.
  - split.
    + intros H. injection H as <- <-. left. reflexivity.
    + intros [H|(d & H & _)]; [|discriminate]. injection H as <- <-. reflexivity.
Qed.
End ChatProperties.

Lemma tool_failure_hidden_witness :
  chat_turn offline_app offline_dump offline_dump offline_dump
    (fun _ => Return search_call) invalid invalid (fun _ => Return tea_search) invalid
    invalid invalid (fun _ => "[]") (fun _ => "None") (fun content => content)
    (fun prompt => ret prompt) "{}" tt
  = gemini_llm_response (fun _ => "[]") (fun _ => "None") (fun content => content)
      (fun prompt => ret prompt) (JList [placeholder]) tt.
Proof.
  apply (tool_failure_hidden offline_app offline_dump offline_dump offline_dump
           (fun _ => Return search_call) invalid invalid (fun _ => Return tea_search)
           invalid invalid invalid (fun _ => "[]") (fun _ => "None")
           (fun content => content) (fun prompt => ret prompt) "{}" search_call
           (fun d => outcome_map ISearch (Return tea_search)) (ISearch tea_search)
           tt tt "offline").
  - reflexivity.
  - discriminate.
  - reflexivity.
  - reflexivity.
  - reflexivity.
Defined.

(** ** [firestream.py]: the typewriter *)







